(** * Session and connection lifecycle of the candidate-portal chat client

    A shallow embedding of [static/js/chat.js]: the [ChatApp] object, the
    part of the page it reads and writes, and the browser objects it talks
    to (WebSocket connections, timers, the identity provider), followed by
    the properties of the session protocol.

    Conventions.
    - A JavaScript string is a [string] whose characters are code units
      below 256.
    - A handler is a computation over the whole state that either
      completes or throws; a thrown exception keeps the assignments made
      before it, as in JavaScript.
    - An [async] method is cut at each [await]: the part before it runs
      when the method is called, the part after it when the awaited value
      arrives (a later event).
    - Markup that no handler reads back (avatar, sidebar texts, progress
      bar, info panel, translated labels) is left out. *)

From Stdlib Require Import List String Ascii ZArith Bool Arith Lia.
Import ListNotations.
Open Scope string_scope.

(* ------------------------------------------------------------------ *)
(** * Strings *)

Definition string_rev (s : string) : string :=
  string_of_list_ascii (rev (list_ascii_of_string s)).

(** White space and line terminators of ECMAScript among the code units
    below 256: TAB, LF, VT, FF, CR, SP and NBSP. *)
Definition isWhiteSpace (c : ascii) : bool :=
  let n := nat_of_ascii c in
  ((9 <=? n)%nat && (n <=? 13)%nat) || (n =? 32)%nat || (n =? 160)%nat.

Fixpoint trimStart (s : string) : string :=
  match s with
  | EmptyString => EmptyString
  | String c r => if isWhiteSpace c then trimStart r else s
  end.

Definition trimEnd (s : string) : string :=
  string_rev (trimStart (string_rev s)).

(** [String.prototype.trim]. *)
Definition trim (s : string) : string := trimEnd (trimStart s).

Fixpoint whitespace_only (s : string) : bool :=
  match s with
  | EmptyString => true
  | String c r => isWhiteSpace c && whitespace_only r
  end.

(** [content.replace(/\n/g, "<br>")]. *)
Fixpoint replace_newlines (s : string) : string :=
  match s with
  | EmptyString => EmptyString
  | String c r =>
      if Ascii.eqb c "010"%char then "<br>" ++ replace_newlines r
      else String c (replace_newlines r)
  end.

(** Truthiness of a string: every string but the empty one. *)
Definition truthy_string (s : string) : bool :=
  match s with EmptyString => false | _ => true end.

(* ------------------------------------------------------------------ *)
(** * Translation tables *)

(** The entries of a table of [i18n] that the handlers read. *)
Record Strings := {
  typeMessage : string;
  connecting : string;
  emailNotRegistered : string;
  applyNow : string
}.

Definition i18n_en : Strings := {|
  typeMessage := "Type your message...";
  connecting := "Connecting...";
  emailNotRegistered :=
    "This email is not registered. Please complete the interpreter application form first.";
  applyNow := "Apply Now"
|}.

Definition i18n_es : Strings := {|
  typeMessage := "Escribe tu mensaje...";
  connecting := "Conectando...";
  emailNotRegistered :=
    "Este correo no esta registrado. Completa el formulario de aplicacion primero.";
  applyNow := "Aplicar"
|}.

(** The names an object literal inherits from [Object.prototype]. Under
    such a name a literal holds a built-in: a function, or the prototype
    itself for [__proto__]. *)
Definition inherited_names : list string :=
  ["constructor"; "__proto__"; "hasOwnProperty"; "isPrototypeOf";
   "propertyIsEnumerable"; "toLocaleString"; "toString"; "valueOf";
   "__defineGetter__"; "__defineSetter__"; "__lookupGetter__"; "__lookupSetter__"].

Definition inherited (name : string) : bool :=
  existsb (String.eqb name) inherited_names.

(** What a built-in has under the keys of a table: nothing. The page
    shows the text [undefined] where such a value is written into it. *)
Definition i18n_inherited : Strings := {|
  typeMessage := "undefined";
  connecting := "undefined";
  emailNotRegistered := "undefined";
  applyNow := "undefined"
|}.

(** [i18n[lang]]: a table of the literal, a built-in that the literal
    inherits, or [undefined], which is [None]. *)
Definition i18n (lang : string) : option Strings :=
  if lang =? "en" then Some i18n_en
  else if lang =? "es" then Some i18n_es
  else if inherited lang then Some i18n_inherited
  else None.

Record QuickActions := { qa_status : string; qa_question : string; qa_human : string }.

(** [quickActionMessages[lang]] where it is a table of the literal. *)
Definition quickActionMessages (lang : string) : option QuickActions :=
  if lang =? "en" then
    Some {| qa_status := "I want to check my application status";
            qa_question := "I have a question";
            qa_human := "I would like to speak with a human" |}
  else if lang =? "es" then
    Some {| qa_status := "Quiero verificar el estado de mi aplicacion";
            qa_question := "Tengo una pregunta";
            qa_human := "Quiero hablar con una persona" |}
  else None.

(** What reading a property yields, as far as the handlers tell values
    apart: a falsy value that is no string ([undefined], [null], zero), a
    string, a truthy value that is no string (a function, an object, a
    number), or an exception of its accessor. *)
Inductive Property :=
| P_falsy
| P_string (text : string)
| P_object
| P_throws.

(** [q[action]] for a table [q] of the literal: one of its three texts,
    a built-in under an inherited name, or [undefined]. *)
Definition quickAction (q : QuickActions) (action : string) : Property :=
  if action =? "status" then P_string (qa_status q)
  else if action =? "question" then P_string (qa_question q)
  else if action =? "human" then P_string (qa_human q)
  else if inherited action then P_object
  else P_falsy.

(* ------------------------------------------------------------------ *)
(** * Stage vocabulary and the timeline projection *)

Record Stage := { key : string; label : string; labelEs : string }.

Definition APPLICATION_STAGES : list Stage := [
  {| key := "Application Review"; label := "Applied"; labelEs := "Aplicado" |};
  {| key := "Candidate Interview"; label := "Interview"; labelEs := "Entrevista" |};
  {| key := "Candidate Language Assessment"; label := "Assessment"; labelEs := "Evaluacion" |};
  {| key := "Candidate ID/Background Verification"; label := "Verification"; labelEs := "Verificacion" |};
  {| key := "Contract & Payment Setup"; label := "Contract"; labelEs := "Contrato" |};
  {| key := "Training Required"; label := "Training"; labelEs := "Capacitacion" |};
  {| key := "Client Tool Orientation"; label := "Orientation"; labelEs := "Orientacion" |};
  {| key := "Interpreter Ready for Production"; label := "Ready"; labelEs := "Listo" |}
].

(** [Array.prototype.findIndex], counting from [i]. *)
Fixpoint findIndex_from {A : Type} (p : A -> bool) (l : list A) (i : Z) : Z :=
  match l with
  | [] => (-1)%Z
  | x :: r => if p x then i else findIndex_from p r (i + 1)%Z
  end.

Definition findIndex {A : Type} (p : A -> bool) (l : list A) : Z :=
  findIndex_from p l 0%Z.

(** [currentStage ? APPLICATION_STAGES.findIndex(s => s.key === currentStage) : -1];
    [None] is [null] or [undefined]. *)
Definition currentIndex (currentStage : option string) : Z :=
  match currentStage with
  | Some st =>
      if truthy_string st
      then findIndex (fun s => key s =? st) APPLICATION_STAGES
      else (-1)%Z
  | None => (-1)%Z
  end.

(** A row of the timeline: its class name and its label. *)
Record Row := { className : string; row_label : string }.

Definition timeline_row (lang : string) (cur : Z) (index : Z) (stage : Stage) : Row :=
  {| className :=
       "timeline-row"
       ++ (if (index <? cur)%Z then " completed" else "")
       ++ (if (index =? cur)%Z then " active" else "");
     row_label := if lang =? "es" then labelEs stage else label stage |}.

Fixpoint rows_from (lang : string) (cur : Z) (index : Z) (l : list Stage) : list Row :=
  match l with
  | [] => []
  | stage :: r => timeline_row lang cur index stage :: rows_from lang cur (index + 1)%Z r
  end.

(** The rows [renderVerticalTimeline(currentStage)] leaves in the
    timeline element, for the language [lang] of the app. *)
Definition renderVerticalTimeline_rows (lang : string) (currentStage : option string) : list Row :=
  rows_from lang (currentIndex currentStage) 0%Z APPLICATION_STAGES.

Definition row_completed (r : Row) : bool := className r =? "timeline-row completed".
Definition row_active (r : Row) : bool := className r =? "timeline-row active".
Definition row_plain (r : Row) : bool := className r =? "timeline-row".

(* ------------------------------------------------------------------ *)
(** * Wire format *)

(** What [JSON.parse] returns. A number only matters through its
    truthiness, so it is kept as an integer. In an object a later
    binding of a name overrides an earlier one. *)
#[warnings="-register-all"]
Inductive Json :=
| JNull
| JBool (b : bool)
| JNum (n : Z)
| JStr (s : string)
| JArr (items : list Json)
| JObj (fields : list (string * Json)).

(** The data of a [message] event, with what [JSON.parse] makes of it. *)
Inductive Inbound :=
| Unparseable (raw : string)
| Parsed (data : Json).

Fixpoint lookup_field (name : string) (fields : list (string * Json)) : option Json :=
  match fields with
  | [] => None
  | (k, v) :: r =>
      match lookup_field name r with
      | Some w => Some w
      | None => if k =? name then Some v else None
      end
  end.

(** [data.name] for [data] other than [null]; [None] is [undefined]. *)
Definition member (name : string) (data : Json) : option Json :=
  match data with
  | JObj fields => lookup_field name fields
  | _ => None
  end.

(** [v === "lit"]. *)
Definition is_str (v : option Json) (lit : string) : bool :=
  match v with
  | Some (JStr s) => s =? lit
  | _ => false
  end.

Definition truthy (v : option Json) : bool :=
  match v with
  | None | Some JNull | Some (JBool false) => false
  | Some (JNum n) => negb (n =? 0)%Z
  | Some (JStr s) => truthy_string s
  | Some _ => true
  end.

(** The envelopes the client serialises with [JSON.stringify]. *)
Inductive Outbound :=
| OutAuth (token : string) (language : string)
| OutMessage (content : string)
| OutSetLanguage (language : string)
| OutNewConversation.

(* ------------------------------------------------------------------ *)
(** * The browser side *)

Inductive ReadyState := CONNECTING | OPEN | CLOSING | CLOSED.

Definition ReadyState_eqb (a b : ReadyState) : bool :=
  match a, b with
  | CONNECTING, CONNECTING | OPEN, OPEN | CLOSING, CLOSING | CLOSED, CLOSED => true
  | _, _ => false
  end.

(** One [WebSocket] object. [ws_token] is the [token] its handlers
    closed over; [ws_sent] and [ws_received] are the traffic so far. *)
Record WebSocket := {
  readyState : ReadyState;
  ws_token : string;
  ws_sent : list Outbound;
  ws_received : list Inbound
}.

Definition ws_set_readyState (r : ReadyState) (w : WebSocket) : WebSocket :=
  {| readyState := r; ws_token := ws_token w;
     ws_sent := ws_sent w; ws_received := ws_received w |}.

Definition ws_push_sent (o : Outbound) (w : WebSocket) : WebSocket :=
  {| readyState := readyState w; ws_token := ws_token w;
     ws_sent := ws_sent w ++ [o]; ws_received := ws_received w |}.

Definition ws_push_received (i : Inbound) (w : WebSocket) : WebSocket :=
  {| readyState := readyState w; ws_token := ws_token w;
     ws_sent := ws_sent w; ws_received := ws_received w ++ [i] |}.

Fixpoint alter {A : Type} (f : A -> A) (i : nat) (l : list A) : list A :=
  match l, i with
  | [], _ => []
  | x :: r, O => f x :: r
  | x :: r, S j => x :: alter f j r
  end.

(** Everything outside the app object and the page: the sockets made
    so far (a socket is named by its position), the delays of the pending
    timers (oldest first), the calls suspended at an [await], the calls
    made to the identity provider, the console and the stored language. *)
Record Env := {
  sockets : list WebSocket;
  timers : list nat;
  pendingConnects : nat;
  pendingLoads : nat;
  pendingSignOuts : nat;
  signOutCalls : nat;
  clerk : bool;
  initDone : bool;
  listening : bool;
  console : list string;
  chat_language : option string
}.

Definition set_sockets v (e : Env) : Env :=
  {| sockets := v; timers := timers e; pendingConnects := pendingConnects e;
     pendingLoads := pendingLoads e; pendingSignOuts := pendingSignOuts e;
     signOutCalls := signOutCalls e; clerk := clerk e; initDone := initDone e;
     listening := listening e; console := console e; chat_language := chat_language e |}.
Definition set_timers v (e : Env) : Env :=
  {| sockets := sockets e; timers := v; pendingConnects := pendingConnects e;
     pendingLoads := pendingLoads e; pendingSignOuts := pendingSignOuts e;
     signOutCalls := signOutCalls e; clerk := clerk e; initDone := initDone e;
     listening := listening e; console := console e; chat_language := chat_language e |}.
Definition set_pendingConnects v (e : Env) : Env :=
  {| sockets := sockets e; timers := timers e; pendingConnects := v;
     pendingLoads := pendingLoads e; pendingSignOuts := pendingSignOuts e;
     signOutCalls := signOutCalls e; clerk := clerk e; initDone := initDone e;
     listening := listening e; console := console e; chat_language := chat_language e |}.
Definition set_pendingLoads v (e : Env) : Env :=
  {| sockets := sockets e; timers := timers e; pendingConnects := pendingConnects e;
     pendingLoads := v; pendingSignOuts := pendingSignOuts e;
     signOutCalls := signOutCalls e; clerk := clerk e; initDone := initDone e;
     listening := listening e; console := console e; chat_language := chat_language e |}.
Definition set_pendingSignOuts v (e : Env) : Env :=
  {| sockets := sockets e; timers := timers e; pendingConnects := pendingConnects e;
     pendingLoads := pendingLoads e; pendingSignOuts := v;
     signOutCalls := signOutCalls e; clerk := clerk e; initDone := initDone e;
     listening := listening e; console := console e; chat_language := chat_language e |}.
Definition set_signOutCalls v (e : Env) : Env :=
  {| sockets := sockets e; timers := timers e; pendingConnects := pendingConnects e;
     pendingLoads := pendingLoads e; pendingSignOuts := pendingSignOuts e;
     signOutCalls := v; clerk := clerk e; initDone := initDone e;
     listening := listening e; console := console e; chat_language := chat_language e |}.
Definition set_clerk v (e : Env) : Env :=
  {| sockets := sockets e; timers := timers e; pendingConnects := pendingConnects e;
     pendingLoads := pendingLoads e; pendingSignOuts := pendingSignOuts e;
     signOutCalls := signOutCalls e; clerk := v; initDone := initDone e;
     listening := listening e; console := console e; chat_language := chat_language e |}.
Definition set_initDone v (e : Env) : Env :=
  {| sockets := sockets e; timers := timers e; pendingConnects := pendingConnects e;
     pendingLoads := pendingLoads e; pendingSignOuts := pendingSignOuts e;
     signOutCalls := signOutCalls e; clerk := clerk e; initDone := v;
     listening := listening e; console := console e; chat_language := chat_language e |}.
Definition set_listening v (e : Env) : Env :=
  {| sockets := sockets e; timers := timers e; pendingConnects := pendingConnects e;
     pendingLoads := pendingLoads e; pendingSignOuts := pendingSignOuts e;
     signOutCalls := signOutCalls e; clerk := clerk e; initDone := initDone e;
     listening := v; console := console e; chat_language := chat_language e |}.
Definition set_console v (e : Env) : Env :=
  {| sockets := sockets e; timers := timers e; pendingConnects := pendingConnects e;
     pendingLoads := pendingLoads e; pendingSignOuts := pendingSignOuts e;
     signOutCalls := signOutCalls e; clerk := clerk e; initDone := initDone e;
     listening := listening e; console := v; chat_language := chat_language e |}.
Definition set_chat_language v (e : Env) : Env :=
  {| sockets := sockets e; timers := timers e; pendingConnects := pendingConnects e;
     pendingLoads := pendingLoads e; pendingSignOuts := pendingSignOuts e;
     signOutCalls := signOutCalls e; clerk := clerk e; initDone := initDone e;
     listening := listening e; console := console e; chat_language := v |}.

(* ------------------------------------------------------------------ *)
(** * The page *)

(** [style.display] of an element; [d_unset] is no inline value. *)
Inductive Display := d_unset | d_none | d_flex | d_block.

(** The role of a chat message. *)
Inductive Role := user | assistant.

(** A message of the log: the role in its class name and its content
    after the line breaks were replaced. *)
Record Message := { msg_role : Role; msg_html : string }.

(** The container [authErrorContainer]: the message, the label of the
    apply link when it is shown, and the display. *)
Record AuthError := {
  ae_message : string;
  ae_apply : option string;
  ae_display : Display
}.

(** The elements the handlers write to. [messageInput_placeholder] is
    the placeholder as [setInputEnabled] wrote it last. *)
Record Dom := {
  loginScreen : Display;
  portalScreen : Display;
  authErrorContainer : option AuthError;
  messageInput_value : string;
  messageInput_disabled : bool;
  messageInput_placeholder : string;
  sendButton_disabled : bool;
  typingIndicator_active : bool;
  quickActions : Display;
  chatMessages : list Message;
  verticalTimeline : list Row
}.

Definition set_loginScreen v (d : Dom) : Dom :=
  {| loginScreen := v; portalScreen := portalScreen d;
     authErrorContainer := authErrorContainer d;
     messageInput_value := messageInput_value d;
     messageInput_disabled := messageInput_disabled d;
     messageInput_placeholder := messageInput_placeholder d;
     sendButton_disabled := sendButton_disabled d;
     typingIndicator_active := typingIndicator_active d;
     quickActions := quickActions d; chatMessages := chatMessages d;
     verticalTimeline := verticalTimeline d |}.
Definition set_portalScreen v (d : Dom) : Dom :=
  {| loginScreen := loginScreen d; portalScreen := v;
     authErrorContainer := authErrorContainer d;
     messageInput_value := messageInput_value d;
     messageInput_disabled := messageInput_disabled d;
     messageInput_placeholder := messageInput_placeholder d;
     sendButton_disabled := sendButton_disabled d;
     typingIndicator_active := typingIndicator_active d;
     quickActions := quickActions d; chatMessages := chatMessages d;
     verticalTimeline := verticalTimeline d |}.
Definition set_authErrorContainer v (d : Dom) : Dom :=
  {| loginScreen := loginScreen d; portalScreen := portalScreen d;
     authErrorContainer := v;
     messageInput_value := messageInput_value d;
     messageInput_disabled := messageInput_disabled d;
     messageInput_placeholder := messageInput_placeholder d;
     sendButton_disabled := sendButton_disabled d;
     typingIndicator_active := typingIndicator_active d;
     quickActions := quickActions d; chatMessages := chatMessages d;
     verticalTimeline := verticalTimeline d |}.
Definition set_messageInput_value v (d : Dom) : Dom :=
  {| loginScreen := loginScreen d; portalScreen := portalScreen d;
     authErrorContainer := authErrorContainer d;
     messageInput_value := v;
     messageInput_disabled := messageInput_disabled d;
     messageInput_placeholder := messageInput_placeholder d;
     sendButton_disabled := sendButton_disabled d;
     typingIndicator_active := typingIndicator_active d;
     quickActions := quickActions d; chatMessages := chatMessages d;
     verticalTimeline := verticalTimeline d |}.
Definition set_messageInput_disabled v (d : Dom) : Dom :=
  {| loginScreen := loginScreen d; portalScreen := portalScreen d;
     authErrorContainer := authErrorContainer d;
     messageInput_value := messageInput_value d;
     messageInput_disabled := v;
     messageInput_placeholder := messageInput_placeholder d;
     sendButton_disabled := sendButton_disabled d;
     typingIndicator_active := typingIndicator_active d;
     quickActions := quickActions d; chatMessages := chatMessages d;
     verticalTimeline := verticalTimeline d |}.
Definition set_messageInput_placeholder v (d : Dom) : Dom :=
  {| loginScreen := loginScreen d; portalScreen := portalScreen d;
     authErrorContainer := authErrorContainer d;
     messageInput_value := messageInput_value d;
     messageInput_disabled := messageInput_disabled d;
     messageInput_placeholder := v;
     sendButton_disabled := sendButton_disabled d;
     typingIndicator_active := typingIndicator_active d;
     quickActions := quickActions d; chatMessages := chatMessages d;
     verticalTimeline := verticalTimeline d |}.
Definition set_sendButton_disabled v (d : Dom) : Dom :=
  {| loginScreen := loginScreen d; portalScreen := portalScreen d;
     authErrorContainer := authErrorContainer d;
     messageInput_value := messageInput_value d;
     messageInput_disabled := messageInput_disabled d;
     messageInput_placeholder := messageInput_placeholder d;
     sendButton_disabled := v;
     typingIndicator_active := typingIndicator_active d;
     quickActions := quickActions d; chatMessages := chatMessages d;
     verticalTimeline := verticalTimeline d |}.
Definition set_typingIndicator_active v (d : Dom) : Dom :=
  {| loginScreen := loginScreen d; portalScreen := portalScreen d;
     authErrorContainer := authErrorContainer d;
     messageInput_value := messageInput_value d;
     messageInput_disabled := messageInput_disabled d;
     messageInput_placeholder := messageInput_placeholder d;
     sendButton_disabled := sendButton_disabled d;
     typingIndicator_active := v;
     quickActions := quickActions d; chatMessages := chatMessages d;
     verticalTimeline := verticalTimeline d |}.
Definition set_quickActions v (d : Dom) : Dom :=
  {| loginScreen := loginScreen d; portalScreen := portalScreen d;
     authErrorContainer := authErrorContainer d;
     messageInput_value := messageInput_value d;
     messageInput_disabled := messageInput_disabled d;
     messageInput_placeholder := messageInput_placeholder d;
     sendButton_disabled := sendButton_disabled d;
     typingIndicator_active := typingIndicator_active d;
     quickActions := v; chatMessages := chatMessages d;
     verticalTimeline := verticalTimeline d |}.
Definition set_chatMessages v (d : Dom) : Dom :=
  {| loginScreen := loginScreen d; portalScreen := portalScreen d;
     authErrorContainer := authErrorContainer d;
     messageInput_value := messageInput_value d;
     messageInput_disabled := messageInput_disabled d;
     messageInput_placeholder := messageInput_placeholder d;
     sendButton_disabled := sendButton_disabled d;
     typingIndicator_active := typingIndicator_active d;
     quickActions := quickActions d; chatMessages := v;
     verticalTimeline := verticalTimeline d |}.
Definition set_verticalTimeline v (d : Dom) : Dom :=
  {| loginScreen := loginScreen d; portalScreen := portalScreen d;
     authErrorContainer := authErrorContainer d;
     messageInput_value := messageInput_value d;
     messageInput_disabled := messageInput_disabled d;
     messageInput_placeholder := messageInput_placeholder d;
     sendButton_disabled := sendButton_disabled d;
     typingIndicator_active := typingIndicator_active d;
     quickActions := quickActions d; chatMessages := chatMessages d;
     verticalTimeline := v |}.

(* ------------------------------------------------------------------ *)
(** * The app object *)

(** The user object of the identity provider; the session logic only
    reads whether there is one. *)
Definition User := string.

(** The candidate record of the backend; of its fields the timeline
    reads [stage]. *)
Record CandidateData := { stage : option string }.

Record ChatApp := {
  socket : option nat;
  clerkUser : option User;
  candidateData : option CandidateData;
  language : string;
  isConnected : bool;
  isConnecting : bool;
  clerkMounted : bool;
  authHandled : bool
}.

Definition set_socket v (a : ChatApp) : ChatApp :=
  {| socket := v; clerkUser := clerkUser a; candidateData := candidateData a;
     language := language a; isConnected := isConnected a;
     isConnecting := isConnecting a; clerkMounted := clerkMounted a;
     authHandled := authHandled a |}.
Definition set_clerkUser v (a : ChatApp) : ChatApp :=
  {| socket := socket a; clerkUser := v; candidateData := candidateData a;
     language := language a; isConnected := isConnected a;
     isConnecting := isConnecting a; clerkMounted := clerkMounted a;
     authHandled := authHandled a |}.
Definition set_candidateData v (a : ChatApp) : ChatApp :=
  {| socket := socket a; clerkUser := clerkUser a; candidateData := v;
     language := language a; isConnected := isConnected a;
     isConnecting := isConnecting a; clerkMounted := clerkMounted a;
     authHandled := authHandled a |}.
Definition set_language v (a : ChatApp) : ChatApp :=
  {| socket := socket a; clerkUser := clerkUser a; candidateData := candidateData a;
     language := v; isConnected := isConnected a;
     isConnecting := isConnecting a; clerkMounted := clerkMounted a;
     authHandled := authHandled a |}.
Definition set_isConnected v (a : ChatApp) : ChatApp :=
  {| socket := socket a; clerkUser := clerkUser a; candidateData := candidateData a;
     language := language a; isConnected := v;
     isConnecting := isConnecting a; clerkMounted := clerkMounted a;
     authHandled := authHandled a |}.
Definition set_isConnecting v (a : ChatApp) : ChatApp :=
  {| socket := socket a; clerkUser := clerkUser a; candidateData := candidateData a;
     language := language a; isConnected := isConnected a;
     isConnecting := v; clerkMounted := clerkMounted a;
     authHandled := authHandled a |}.
Definition set_clerkMounted v (a : ChatApp) : ChatApp :=
  {| socket := socket a; clerkUser := clerkUser a; candidateData := candidateData a;
     language := language a; isConnected := isConnected a;
     isConnecting := isConnecting a; clerkMounted := v;
     authHandled := authHandled a |}.
Definition set_authHandled v (a : ChatApp) : ChatApp :=
  {| socket := socket a; clerkUser := clerkUser a; candidateData := candidateData a;
     language := language a; isConnected := isConnected a;
     isConnecting := isConnecting a; clerkMounted := clerkMounted a;
     authHandled := v |}.

(** The whole state: [this], the page and the browser. *)
Record State := { app : ChatApp; dom : Dom; env : Env }.

Definition upd_app (f : ChatApp -> ChatApp) (s : State) : State :=
  {| app := f (app s); dom := dom s; env := env s |}.
Definition upd_dom (f : Dom -> Dom) (s : State) : State :=
  {| app := app s; dom := f (dom s); env := env s |}.
Definition upd_env (f : Env -> Env) (s : State) : State :=
  {| app := app s; dom := dom s; env := f (env s) |}.

(* ------------------------------------------------------------------ *)
(** * Handlers as computations that may throw *)

Inductive Error := TypeError | SyntaxError | InvalidStateError.

(** The outcome of running a handler: it returned, or it threw; either
    way with the state it left. *)
Inductive Completion (A : Type) :=
| Returned (a : A) (s : State)
| Threw (e : Error) (s : State).
Arguments Returned {A} a s.
Arguments Threw {A} e s.

Definition M (A : Type) : Type := State -> Completion A.

Definition ret {A : Type} (a : A) : M A := fun s => Returned a s.

Definition bind {A B : Type} (c : M A) (k : A -> M B) : M B :=
  fun s => match c s with
           | Returned a s' => k a s'
           | Threw e s' => Threw e s'
           end.

Definition throw {A : Type} (e : Error) : M A := fun s => Threw e s.

Definition get : M State := fun s => Returned s s.

Definition modify (f : State -> State) : M unit := fun s => Returned tt (f s).

(** [try { c } catch(e) { h }]. *)
Definition try_catch {A : Type} (c : M A) (h : Error -> M A) : M A :=
  fun s => match c s with
           | Returned a s' => Returned a s'
           | Threw e s' => h e s'
           end.

Declare Scope js_scope.
Delimit Scope js_scope with js.
Notation "x <- c ;; k" := (bind c (fun x => k))
  (at level 61, c at next level, right associativity) : js_scope.
Notation "c ;; k" := (bind c (fun _ => k))
  (at level 61, right associativity) : js_scope.
Open Scope js_scope.

(** The state a handler leaves, however it ended. *)
Definition final {A : Type} (r : Completion A) : State :=
  match r with
  | Returned _ s => s
  | Threw _ s => s
  end.

Definition returned {A : Type} (r : Completion A) : bool :=
  match r with
  | Returned _ _ => true
  | Threw _ _ => false
  end.

Definition when (b : bool) (c : M unit) : M unit := if b then c else ret tt.

(* ------------------------------------------------------------------ *)
(** * Browser operations *)

Definition new_WebSocket (token : string) : WebSocket :=
  {| readyState := CONNECTING; ws_token := token; ws_sent := []; ws_received := [] |}.

(** [WebSocket.prototype.send]: throws while the socket is connecting,
    transmits while it is open, discards afterwards. *)
Definition socket_send (id : nat) (o : Outbound) : M unit :=
  s <- get;;
  match nth_error (sockets (env s)) id with
  | None => ret tt
  | Some w =>
      match readyState w with
      | CONNECTING => throw InvalidStateError
      | OPEN => modify (upd_env (fun e => set_sockets (alter (ws_push_sent o) id (sockets e)) e))
      | CLOSING | CLOSED => ret tt
      end
  end.

(** [WebSocket.prototype.close]: the closing handshake starts; the
    [close] event comes later. *)
Definition ws_close (w : WebSocket) : WebSocket :=
  match readyState w with
  | CONNECTING | OPEN => ws_set_readyState CLOSING w
  | CLOSING | CLOSED => w
  end.

Definition socket_close (id : nat) : M unit :=
  modify (upd_env (fun e => set_sockets (alter ws_close id (sockets e)) e)).

(** [this.socket.send(JSON.stringify(o))]. *)
Definition this_socket_send (o : Outbound) : M unit :=
  s <- get;;
  match socket (app s) with
  | None => throw TypeError
  | Some id => socket_send id o
  end.

(** [setTimeout(callback, delay)]. *)
Definition setTimeout (delay : nat) : M unit :=
  modify (upd_env (fun e => set_timers (timers e ++ [delay]) e)).

(** [Clerk.signOut()], the call only. *)
Definition Clerk_signOut : M unit :=
  modify (upd_env (fun e => set_signOutCalls (S (signOutCalls e)) e)).

Definition console_error (msg : string) : M unit :=
  modify (upd_env (fun e => set_console (console e ++ [msg]) e)).

(* ------------------------------------------------------------------ *)
(** * Methods of [ChatApp] *)

Definition hideAuthError : M unit :=
  modify (upd_dom (fun d =>
    match authErrorContainer d with
    | Some el =>
        set_authErrorContainer
          (Some {| ae_message := ae_message el; ae_apply := ae_apply el;
                   ae_display := d_none |}) d
    | None => d
    end)).

(** The element [clerk-sign-in] is part of the page. *)
Definition showSignIn : M unit :=
  modify (upd_dom (set_loginScreen d_flex));;
  modify (upd_dom (set_portalScreen d_none));;
  hideAuthError;;
  s <- get;;
  when (clerk (env s) && negb (clerkMounted (app s)))
       (modify (upd_app (set_clerkMounted true))).

Definition showAuthError (message : string) (showApplyLink : bool) : M unit :=
  s <- get;;
  let strings := match i18n (language (app s)) with
                 | Some t => t
                 | None => i18n_en
                 end in
  modify (upd_dom (set_authErrorContainer
    (Some {| ae_message := message;
             ae_apply := if showApplyLink then Some (applyNow strings) else None;
             ae_display := d_block |}))).

(** The avatar and the name in the sidebar are left out. *)
Definition showPortal : M unit :=
  modify (upd_dom (set_loginScreen d_none));;
  modify (upd_dom (set_portalScreen d_flex)).

Definition renderVerticalTimeline (currentStage : option string) : M unit :=
  s <- get;;
  modify (upd_dom (set_verticalTimeline
    (renderVerticalTimeline_rows (language (app s)) currentStage))).

Definition showQuickActions : M unit := modify (upd_dom (set_quickActions d_flex)).
Definition hideQuickActions : M unit := modify (upd_dom (set_quickActions d_none)).
Definition showTypingIndicator : M unit := modify (upd_dom (set_typingIndicator_active true)).
Definition hideTypingIndicator : M unit := modify (upd_dom (set_typingIndicator_active false)).

Definition setInputEnabled (enabled : bool) : M unit :=
  modify (upd_dom (set_messageInput_disabled (negb enabled)));;
  modify (upd_dom (set_sendButton_disabled (negb enabled)));;
  s <- get;;
  match i18n (language (app s)) with
  | None => throw TypeError
  | Some strings =>
      modify (upd_dom (set_messageInput_placeholder
        (if enabled then typeMessage strings else connecting strings)))
  end.

Definition addMessage (content : string) (role : Role) : M unit :=
  modify (upd_dom (fun d =>
    set_chatMessages
      (chatMessages d ++ [{| msg_role := role; msg_html := replace_newlines content |}]) d)).

(** [connect()] up to [await this.getSessionToken()]. *)
Definition connect : M unit :=
  s <- get;;
  if isConnecting (app s) || isConnected (app s) then ret tt
  else
    modify (upd_app (set_isConnecting true));;
    modify (upd_env (fun e => set_pendingConnects (S (pendingConnects e)) e)).

Definition truthy_token (token : option string) : bool :=
  match token with
  | Some t => truthy_string t
  | None => false
  end.

(** [connect()] from the moment the token arrives: it gives up without
    one, and otherwise makes the socket and installs the four handlers
    below on it. *)
Definition connect_resume (token : option string) : M unit :=
  modify (upd_env (fun e => set_pendingConnects (pred (pendingConnects e)) e));;
  match token with
  | Some t =>
      if truthy_string t then
        s <- get;;
        modify (upd_env (fun e => set_sockets (sockets e ++ [new_WebSocket t]) e));;
        modify (upd_app (set_socket (Some (List.length (sockets (env s))))))
      else modify (upd_app (set_isConnecting false))
  | None => modify (upd_app (set_isConnecting false))
  end.

Definition onopen (token : string) : M unit :=
  modify (upd_app (set_isConnected true));;
  modify (upd_app (set_isConnecting false));;
  setInputEnabled true;;
  s <- get;;
  this_socket_send (OutAuth token (language (app s))).

Definition onmessage (event : Inbound) : M unit :=
  match event with
  | Unparseable _ => throw SyntaxError
  | Parsed JNull => throw TypeError
  | Parsed data =>
      if is_str (member "type" data) "auth_success" then showQuickActions
      else if is_str (member "type" data) "auth_failed" then
        when (is_str (member "reason" data) "email_not_registered")
          (s <- get;;
           when (clerk (env s)) Clerk_signOut;;
           showSignIn;;
           s' <- get;;
           match i18n (language (app s')) with
           | None => throw TypeError
           | Some strings => showAuthError (emailNotRegistered strings) true
           end)
      else if is_str (member "type" data) "message" then
        hideTypingIndicator;;
        match member "content" data with
        | Some (JStr content) => addMessage content assistant
        | _ => throw TypeError
        end
      else if is_str (member "type" data) "typing" && truthy (member "status" data)
      then showTypingIndicator
      else ret tt
  end.

Definition onclose : M unit :=
  modify (upd_app (set_isConnected false));;
  modify (upd_app (set_isConnecting false));;
  setInputEnabled false;;
  setTimeout 3000.

Definition onerror : M unit := modify (upd_app (set_isConnecting false)).

(** The callback [onclose] hands to [setTimeout]. *)
Definition reconnect_callback : M unit :=
  s <- get;;
  match clerkUser (app s) with
  | Some _ => when (negb (isConnected (app s))) connect
  | None => ret tt
  end.

(** [loadCandidateData()] up to its first [await]. *)
Definition loadCandidateData : M unit :=
  modify (upd_env (fun e => set_pendingLoads (S (pendingLoads e)) e)).

(** [Clerk.unmountSignIn] cannot make the method fail: its exceptions
    are caught. *)
Definition onUserSignedIn : M unit :=
  s <- get;;
  when (clerkMounted (app s) && clerk (env s))
       (modify (upd_app (set_clerkMounted false)));;
  hideAuthError;;
  showPortal;;
  s' <- get;;
  when (negb (isConnected (app s')) && negb (isConnecting (app s'))) connect;;
  loadCandidateData.

Definition onUserSignedOut : M unit :=
  modify (upd_app (set_clerkUser None));;
  modify (upd_app (set_authHandled false));;
  modify (upd_app (set_isConnected false));;
  modify (upd_app (set_isConnecting false));;
  s <- get;;
  match socket (app s) with
  | Some id => socket_close id;; modify (upd_app (set_socket None))
  | None => ret tt
  end;;
  showSignIn.

(** The callback given to [Clerk.addListener]; [resources_user] is
    [resources.user]. *)
Definition listener (resources_user : option User) : M unit :=
  s <- get;;
  if authHandled (app s) then ret tt
  else
    match resources_user with
    | Some u =>
        modify (upd_app (set_authHandled true));;
        modify (upd_app (set_clerkUser (Some u)));;
        onUserSignedIn
    | None => onUserSignedOut
    end.

(** What [initClerk] finds once its waiting is over: no provider at all,
    or a loaded one, which may call a new listener back at once and which
    has a current user or none. *)
Inductive ClerkAtInit :=
| NoClerk
| Loaded (immediate : option (option User)) (current : option User).

Definition initClerk (c : ClerkAtInit) : M unit :=
  modify (upd_env (set_initDone true));;
  match c with
  | NoClerk => showSignIn
  | Loaded immediate current =>
      modify (upd_env (set_clerk true));;
      modify (upd_env (set_listening true));;
      match immediate with
      | Some resources_user => listener resources_user
      | None => ret tt
      end;;
      match current with
      | Some u =>
          modify (upd_app (set_authHandled true));;
          modify (upd_app (set_clerkUser (Some u)));;
          onUserSignedIn
      | None => showSignIn
      end
  end.

(** [applyLanguage] rewrites the translated texts of the page and is
    left out. *)
Definition setLanguage (lang : string) : M unit :=
  modify (upd_app (set_language lang));;
  modify (upd_env (set_chat_language (Some lang)));;
  s <- get;;
  match candidateData (app s) with
  | Some c => renderVerticalTimeline (stage c)
  | None => ret tt
  end;;
  match socket (app s) with
  | Some id => when (isConnected (app s)) (socket_send id (OutSetLanguage lang))
  | None => ret tt
  end.

(** How the request of [loadCandidateData] ends: without a token; with
    a 2xx response, whose body is a candidate or a falsy value, and after
    which the info panel (not modelled) renders or throws; with a 403;
    with another status; or with a request or a body that fails. *)
Inductive FetchOutcome :=
| NoToken
| Fetched (data : option CandidateData) (panel_renders : bool)
| Forbidden
| OtherStatus
| FetchFailed.

Definition failed_to_load : string := "Failed to load candidate data:".

(** [loadCandidateData()] from the token on, up to [await Clerk.signOut()]
    in the 403 branch. Of [updateSidebar] the timeline is kept; an
    exception of [updateInfoPanel] is caught and logged like any other. *)
Definition loadCandidateData_resume (r : FetchOutcome) : M unit :=
  modify (upd_env (fun e => set_pendingLoads (pred (pendingLoads e)) e));;
  match r with
  | NoToken => ret tt
  | Fetched data panel_renders =>
      modify (upd_app (set_candidateData data));;
      match data with
      | Some c =>
          renderVerticalTimeline (stage c);;
          if panel_renders then ret tt else console_error failed_to_load
      | None => ret tt
      end
  | Forbidden =>
      s <- get;;
      if clerk (env s) then
        Clerk_signOut;;
        modify (upd_env (fun e => set_pendingSignOuts (S (pendingSignOuts e)) e))
      else console_error failed_to_load
  | OtherStatus => ret tt
  | FetchFailed => console_error failed_to_load
  end.

(** The rest of the 403 branch, once the sign-out settled. *)
Definition loadCandidateData_forbidden (settled : bool) : M unit :=
  modify (upd_env (fun e => set_pendingSignOuts (pred (pendingSignOuts e)) e));;
  if settled then
    try_catch
      (showSignIn;;
       s <- get;;
       match i18n (language (app s)) with
       | None => throw TypeError
       | Some strings => showAuthError (emailNotRegistered strings) true
       end)
      (fun _ => console_error failed_to_load)
  else console_error failed_to_load.

Definition sendMessage (content : option string) : M unit :=
  s <- get;;
  let message :=
    match content with
    | Some c => if truthy_string c then c else trim (messageInput_value (dom s))
    | None => trim (messageInput_value (dom s))
    end in
  if negb (truthy_string message) || negb (isConnected (app s)) then ret tt
  else
    hideQuickActions;;
    addMessage message user;;
    this_socket_send (OutMessage message);;
    modify (upd_dom (set_messageInput_value "")).

(** [sendMessage(content)] for a content that is truthy and is no
    string: the test on [isConnected] is passed like with a text, and
    [addMessage] finds no [replace] on the content. *)
Definition sendMessage_object : M unit :=
  s <- get;;
  if negb (isConnected (app s)) then ret tt
  else hideQuickActions;; throw TypeError.

(** [quickActionMessages[this.language]?.[action]]. When the language
    is a name the literal inherits, the property is read on a built-in
    of the engine and [builtin] is what the engine has there; for a
    language that is no property of the literal the chain ends with
    [undefined]. *)
Definition quickActionMessage (lang action : string) (builtin : Property) : Property :=
  match quickActionMessages lang with
  | Some q => quickAction q action
  | None => if inherited lang then builtin else P_falsy
  end.

Definition handleQuickAction (action : string) (builtin : Property) : M unit :=
  s <- get;;
  match quickActionMessage (language (app s)) action builtin with
  | P_throws => throw TypeError
  | P_falsy => ret tt
  | P_string msg => when (truthy_string msg) (sendMessage (Some msg))
  | P_object => sendMessage_object
  end.

Definition newConversation : M unit :=
  s <- get;;
  match socket (app s) with
  | Some id =>
      when (isConnected (app s))
        (modify (upd_dom (set_chatMessages []));;
         showQuickActions;;
         socket_send id OutNewConversation)
  | None => ret tt
  end.

(** The global [logout()]. *)
Definition logout : M unit :=
  s <- get;;
  when (clerk (env s)) Clerk_signOut.

(* ------------------------------------------------------------------ *)
(** * Events *)

(** Modelled from the spec: the language buttons of the page, whose
    markup is not among the sources. A button carries a language code, a
    string, and its click hands that string to [setLanguage]. *)
Definition Language := string.

(** What can happen to the page: the end of [initClerk]'s waiting, a
    callback of the identity provider, the arrival of an awaited value,
    the four events of a socket, the firing of the oldest timer, and the
    actions of the person in front of it. A quick action comes with what
    the engine has under its name on a built-in, which is read only when
    the language is an inherited name. *)
Inductive Event :=
| EvInitClerk (c : ClerkAtInit)
| EvAuthChange (resources_user : option User)
| EvToken (token : option string)
| EvOpen (id : nat)
| EvMessage (id : nat) (data : Inbound)
| EvError (id : nat)
| EvClose (id : nat)
| EvTimer
| EvCandidate (r : FetchOutcome)
| EvSignOutSettled (ok : bool)
| EvInput (text : string)
| EvSubmit
| EvQuickAction (action : string) (builtin : Property)
| EvNewConversation
| EvSetLanguage (lang : Language)
| EvLogout.

Definition socket_readyState (id : nat) (s : State) : option ReadyState :=
  option_map readyState (nth_error (sockets (env s)) id).

Definition alter_socket (f : WebSocket -> WebSocket) (id : nat) : M unit :=
  modify (upd_env (fun e => set_sockets (alter f id (sockets e)) e)).

(** An event needs something to come from: a socket in the right state,
    a pending timer, a suspended call, a registered listener. *)
Definition enabled (ev : Event) (s : State) : bool :=
  match ev with
  | EvInitClerk _ => negb (initDone (env s))
  | EvAuthChange _ => listening (env s)
  | EvToken _ => (0 <? pendingConnects (env s))%nat
  | EvOpen id =>
      match socket_readyState id s with
      | Some CONNECTING => true
      | _ => false
      end
  | EvMessage id _ =>
      match socket_readyState id s with
      | Some OPEN => true
      | _ => false
      end
  | EvError id | EvClose id =>
      match socket_readyState id s with
      | Some CONNECTING | Some OPEN | Some CLOSING => true
      | _ => false
      end
  | EvTimer =>
      match timers (env s) with
      | [] => false
      | _ :: _ => true
      end
  | EvCandidate _ => (0 <? pendingLoads (env s))%nat
  | EvSignOutSettled _ => (0 <? pendingSignOuts (env s))%nat
  | EvInput _ | EvSubmit | EvQuickAction _ _ | EvNewConversation
  | EvSetLanguage _ | EvLogout => true
  end.

(** The browser's part of an event, then the handler of the app. An
    [error] leaves the socket on its way to closed; its [close] event is
    still to come. *)
Definition fire (ev : Event) : M unit :=
  match ev with
  | EvInitClerk c => initClerk c
  | EvAuthChange u => listener u
  | EvToken token => connect_resume token
  | EvOpen id =>
      s <- get;;
      alter_socket (ws_set_readyState OPEN) id;;
      match nth_error (sockets (env s)) id with
      | Some w => onopen (ws_token w)
      | None => ret tt
      end
  | EvMessage id data =>
      alter_socket (ws_push_received data) id;;
      onmessage data
  | EvError id =>
      alter_socket (ws_set_readyState CLOSING) id;;
      onerror
  | EvClose id =>
      alter_socket (ws_set_readyState CLOSED) id;;
      onclose
  | EvTimer =>
      modify (upd_env (fun e => set_timers (tl (timers e)) e));;
      reconnect_callback
  | EvCandidate r => loadCandidateData_resume r
  | EvSignOutSettled ok => loadCandidateData_forbidden ok
  | EvInput text => modify (upd_dom (set_messageInput_value text))
  | EvSubmit => sendMessage None
  | EvQuickAction action builtin => handleQuickAction action builtin
  | EvNewConversation => newConversation
  | EvSetLanguage lang => setLanguage lang
  | EvLogout => logout
  end.

(** One turn of the event loop. An exception that leaves a handler is
    reported by the browser and the loop goes on. *)
Definition step (ev : Event) (s : State) : State :=
  if enabled ev s then final (fire ev s) else s.

Definition run (trace : list Event) (s : State) : State :=
  fold_left (fun st ev => step ev st) trace s.

(** [localStorage.getItem("chat_language") || "en"]. *)
Definition stored_language (stored : option string) : string :=
  match stored with
  | Some l => if truthy_string l then l else "en"
  | None => "en"
  end.

(** The state [new ChatApp()] leaves on the page [page], with [stored]
    in the storage under [chat_language]: the constructor's assignments
    and the synchronous part of [init()]. *)
Definition initial (stored : option string) (page : Dom) : State :=
  let lang := stored_language stored in
  {| app := {| socket := None; clerkUser := None; candidateData := None;
               language := lang; isConnected := false; isConnecting := false;
               clerkMounted := false; authHandled := false |};
     dom := set_verticalTimeline (renderVerticalTimeline_rows lang None) page;
     env := {| sockets := []; timers := []; pendingConnects := 0;
               pendingLoads := 0; pendingSignOuts := 0; signOutCalls := 0;
               clerk := false; initDone := false; listening := false;
               console := []; chat_language := stored |} |}.

Definition reachable (s : State) : Prop :=
  exists stored page trace, s = run trace (initial stored page).

(** A page with nothing set inline, for the examples. *)
Definition blank_page : Dom :=
  {| loginScreen := d_unset; portalScreen := d_unset; authErrorContainer := None;
     messageInput_value := ""; messageInput_disabled := false;
     messageInput_placeholder := ""; sendButton_disabled := false;
     typingIndicator_active := false; quickActions := d_unset;
     chatMessages := []; verticalTimeline := [] |}.

(* ------------------------------------------------------------------ *)
(** * The session states of the specification, read off the fields *)

Definition is_auth_success (i : Inbound) : bool :=
  match i with
  | Parsed JNull => false
  | Parsed data => is_str (member "type" data) "auth_success"
  | Unparseable _ => false
  end.

(** The current socket was sent the success envelope. *)
Definition handshake_succeeded (s : State) : bool :=
  match socket (app s) with
  | Some id =>
      match nth_error (sockets (env s)) id with
      | Some w => existsb is_auth_success (ws_received w)
      | None => false
      end
  | None => false
  end.

Inductive AuthState := Unauthenticated | Connecting | Authenticating | Ready | Failed.

(** [Connecting] while a connection attempt is under way, [Authenticating]
    from the opening of the socket to the success envelope, [Ready] after
    it, [Failed] once the connection that was made is gone, and
    [Unauthenticated] when there is none. *)
Definition authState (s : State) : AuthState :=
  if isConnected (app s) then
    if handshake_succeeded s then Ready else Authenticating
  else if isConnecting (app s) then Connecting
  else match socket (app s) with
       | Some _ => Failed
       | None => Unauthenticated
       end.

(** The sockets whose [close] event is still to come. *)
Definition is_live (w : WebSocket) : bool := negb (ReadyState_eqb (readyState w) CLOSED).

Definition live_count (l : list WebSocket) : nat := List.length (filter is_live l).

Definition live (s : State) : nat := live_count (sockets (env s)).

(** All envelopes sent so far, socket by socket. *)
Definition outbound (s : State) : list (list Outbound) := map ws_sent (sockets (env s)).

(* ------------------------------------------------------------------ *)
(** * Properties of states and example runs *)

Definition flags_exclusive (s : State) : Prop :=
  isConnecting (app s) && isConnected (app s) = false.

(** The language in use has a table of its own. *)
Definition lang_ok (s : State) : Prop :=
  language (app s) = "en" \/ language (app s) = "es".

(** What every reachable state satisfies. A suspended [connect()], a
    socket that has not closed and a pending reconnect timer pass the
    baton to one another, so there is at most one of them in all; until
    a sign-in was handled there is none, nothing is awaited and the flags
    are down; while [isConnected] is up there is a socket that has not
    closed; and a handled sign-in means a user and a loaded provider. *)
Record Inv (s : State) : Prop := {
  inv_single :
    pendingConnects (env s) + live s + List.length (timers (env s)) <= 1;
  inv_fresh :
    authHandled (app s) = false ->
    sockets (env s) = [] /\ timers (env s) = [] /\ pendingConnects (env s) = 0
    /\ socket (app s) = None
    /\ isConnected (app s) = false /\ isConnecting (app s) = false;
  inv_user : authHandled (app s) = true -> clerkUser (app s) <> None;
  inv_nobody : authHandled (app s) = false -> clerkUser (app s) = None;
  inv_init :
    initDone (env s) = false ->
    authHandled (app s) = false /\ listening (env s) = false;
  inv_connected : isConnected (app s) = true -> 1 <= live s;
  inv_clerk : authHandled (app s) = true -> clerk (env s) = true;
  inv_listening : listening (env s) = true -> clerk (env s) = true;
  inv_idle :
    authHandled (app s) = false ->
    pendingLoads (env s) = 0 /\ pendingSignOuts (env s) = 0
}.

(** [connect()] called [n] times in a row. *)
Fixpoint connect_times (n : nat) (s : State) : State :=
  match n with
  | O => s
  | S k => connect_times k (final (connect s))
  end.

(** An envelope [auth_failed] with the reason [email_not_registered]. *)
Definition identity_unverified (data : Json) : Prop :=
  is_str (member "type" data) "auth_failed" = true
  /\ is_str (member "reason" data) "email_not_registered" = true.

(** From [s] to [s']: one more call of the provider's sign-out, the
    sign-in screen shown with the error and its apply link, and nothing
    done to timers, connection attempts or flags, nor to the sockets:
    each is in the state it was in and has sent what it had sent. *)
Definition signed_out_with_error (strings : Strings) (s s' : State) : Prop :=
  signOutCalls (env s') = S (signOutCalls (env s))
  /\ loginScreen (dom s') = d_flex /\ portalScreen (dom s') = d_none
  /\ authErrorContainer (dom s')
     = Some {| ae_message := emailNotRegistered strings;
               ae_apply := Some (applyNow strings);
               ae_display := d_block |}
  /\ timers (env s') = timers (env s)
  /\ pendingConnects (env s') = pendingConnects (env s)
  /\ map readyState (sockets (env s')) = map readyState (sockets (env s))
  /\ outbound s' = outbound s
  /\ socket (app s') = socket (app s)
  /\ isConnected (app s') = isConnected (app s)
  /\ isConnecting (app s') = isConnecting (app s).

(** A user is signed in when the page starts, the token arrives and the
    socket opens; nothing has come back from the server yet. *)
Definition sign_in_and_open : list Event :=
  [EvInitClerk (Loaded None (Some "ann")); EvToken (Some "tok"); EvOpen 0].

Definition authenticating : State := run sign_in_and_open (initial None blank_page).

Definition auth_failed_unregistered : Inbound :=
  Parsed (JObj [("type", JStr "auth_failed"); ("reason", JStr "email_not_registered")]).

Definition auth_success : Inbound := Parsed (JObj [("type", JStr "auth_success")]).

(** The run to [Ready], and the same run followed by the close of the
    connection. *)
Definition ready_trace : list Event :=
  (sign_in_and_open ++ [EvMessage 0 auth_success])%list.

Definition closed_trace : list Event := (ready_trace ++ [EvClose 0])%list.

(* ------------------------------------------------------------------ *)
(** * Further notions: the timeline, the log, payloads, traffic *)

(** The labels of the timeline in the language [lang]: the Spanish ones
    for "es", the English ones for every other code. *)
Definition stage_labels (lang : string) : list string :=
  map (fun st => if lang =? "es" then labelEs st else label st) APPLICATION_STAGES.

(** The class names of a timeline whose stage has the position [i]. *)
Definition timeline_classes (i : nat) : list string :=
  (repeat "timeline-row completed" i ++ ["timeline-row active"]
   ++ repeat "timeline-row" (7 - i))%list.

(** The line feed, as a string. *)
Definition line_feed : string := String "010"%char EmptyString.

(** The pieces of a string between its line feeds. *)
Fixpoint lines (s : string) : list string :=
  match s with
  | EmptyString => [EmptyString]
  | String c r =>
      if Ascii.eqb c "010"%char then EmptyString :: lines r
      else match lines r with
           | [] => [String c EmptyString]
           | piece :: pieces => String c piece :: pieces
           end
  end.

Fixpoint has_newline (s : string) : bool :=
  match s with
  | EmptyString => false
  | String c r => Ascii.eqb c "010"%char || has_newline r
  end.

(** A string begins, or ends, with white space. *)
Definition begins_with_space (s : string) : bool :=
  match s with
  | EmptyString => false
  | String c _ => isWhiteSpace c
  end.

Definition ends_with_space (s : string) : bool := begins_with_space (string_rev s).

(** The leading white space of a list of characters dropped. *)
Fixpoint drop_space (l : list ascii) : list ascii :=
  match l with
  | [] => []
  | c :: r => if isWhiteSpace c then drop_space r else l
  end.

Definition no_leading_space (l : list ascii) : bool :=
  match l with
  | [] => true
  | c :: _ => negb (isWhiteSpace c)
  end.

(** The payloads on which the message handler throws: what is not JSON,
    the JSON value [null], and an envelope [message] whose [content] is
    not a string. *)
Definition throws_on (event : Inbound) : bool :=
  match event with
  | Unparseable _ => true
  | Parsed JNull => true
  | Parsed data =>
      is_str (member "type" data) "message"
      && match member "content" data with
         | Some (JStr _) => false
         | _ => true
         end
  end.

(** The payloads no branch of the message handler takes up. *)
Definition passed_over (data : Json) : bool :=
  match data with
  | JNull => false
  | _ =>
      negb (is_str (member "type" data) "auth_success")
      && negb (is_str (member "type" data) "auth_failed"
               && is_str (member "reason" data) "email_not_registered")
      && negb (is_str (member "type" data) "message")
      && negb (is_str (member "type" data) "typing" && truthy (member "status" data))
  end.

(** The events that call the provider's sign-out. *)
Definition signs_out (ev : Event) : bool :=
  match ev with
  | EvLogout => true
  | EvCandidate Forbidden => true
  | EvMessage _ (Parsed data) =>
      is_str (member "type" data) "auth_failed"
      && is_str (member "reason" data) "email_not_registered"
  | _ => false
  end.

(** The names of the quick actions: the keys of the tables. *)
Definition known_action (action : string) : bool :=
  (action =? "status") || (action =? "question") || (action =? "human").

(** The events other than a message of the server, whose payload
    decides what its handler does, and than a quick action under a name
    that is no key of the tables, where an inherited name makes
    [addMessage] throw. *)
Definition plain_event (ev : Event) : bool :=
  match ev with
  | EvMessage _ _ => false
  | EvQuickAction action _ => known_action action
  | _ => true
  end.

(** Nothing is awaited, no socket is on its way and no timer is set,
    after a sign-in was handled. *)
Definition quiescent (s : State) : Prop :=
  authHandled (app s) = true
  /\ pendingConnects (env s) = 0 /\ live s = 0 /\ timers (env s) = [].

Definition is_connecting (w : WebSocket) : bool :=
  ReadyState_eqb (readyState w) CONNECTING.

Definition connecting_count (l : list WebSocket) : nat :=
  List.length (filter is_connecting l).

(** An envelope [message] carries a content that is not empty. *)
Definition envelope_ok (o : Outbound) : bool :=
  match o with
  | OutMessage c => truthy_string c
  | _ => true
  end.

(** The traffic of a socket begins with the [auth] envelope that carries
    the token of that socket, and an open socket has sent it. *)
Definition starts_with_auth (w : WebSocket) : bool :=
  match ws_sent w with
  | [] => negb (ReadyState_eqb (readyState w) OPEN)
  | OutAuth t _ :: _ => t =? ws_token w
  | _ => false
  end.

Definition sent_ok (w : WebSocket) : bool :=
  starts_with_auth w && forallb envelope_ok (ws_sent w).

(** Every socket that has not closed is the one [sock] names. *)
Definition current_l (sock : option nat) (l : list WebSocket) : Prop :=
  forall id w, nth_error l id = Some w -> is_live w = true -> sock = Some id.

Definition current_only (s : State) : Prop :=
  current_l (socket (app s)) (sockets (env s)).

(** One of the two screens is shown and the other is hidden. *)
Definition screens_exclusive (d : Dom) : Prop :=
  (loginScreen d = d_flex /\ portalScreen d = d_none)
  \/ (loginScreen d = d_none /\ portalScreen d = d_flex).

(** More of what every reachable state satisfies: [this.socket] names
    the only socket that may not have closed; while [isConnected] is up
    no socket is still connecting and the input is enabled; while
    [isConnecting] is up an attempt is under way, awaiting its token or
    its socket still connecting; after [initClerk] one screen is shown,
    and the error only on the sign-in screen; and the timeline shows the
    stage of the candidate data in the current language. *)
Record Inv2 (s : State) : Prop := {
  inv_current : current_only s;
  inv_opened :
    isConnected (app s) = true -> connecting_count (sockets (env s)) = 0;
  inv_attempt :
    isConnecting (app s) = true ->
    pendingConnects (env s) + connecting_count (sockets (env s)) = 1;
  inv_screens : initDone (env s) = true -> screens_exclusive (dom s);
  inv_error :
    initDone (env s) = true ->
    forall el, authErrorContainer (dom s) = Some el ->
    ae_display el = d_block -> loginScreen (dom s) = d_flex;
  inv_input :
    isConnected (app s) = true ->
    messageInput_disabled (dom s) = false /\ sendButton_disabled (dom s) = false;
  inv_timeline :
    forall c, candidateData (app s) = Some c ->
    verticalTimeline (dom s)
    = renderVerticalTimeline_rows (language (app s)) (stage c)
}.

(** [i18n] has something under the language: reading a text of it does
    not throw. *)
Definition has_strings (lang : string) : bool :=
  match i18n lang with
  | Some _ => true
  | None => false
  end.

(** The events that leave the language one under which [i18n] has
    something. *)
Definition keeps_strings (ev : Event) : bool :=
  match ev with
  | EvSetLanguage lang => has_strings lang
  | _ => true
  end.

(** What holds as long as [i18n] has something under the language in
    use: the traffic of every socket is well formed. *)
Record Inv3 (s : State) : Prop := {
  inv_strings : has_strings (language (app s)) = true;
  inv_sent : Forall (fun w => sent_ok w = true) (sockets (env s))
}.

(* ------------------------------------------------------------------ *)
(** * Further example states *)

(** The socket of [authenticating], which has sent its [auth] envelope. *)
Definition authenticating_socket : WebSocket :=
  {| readyState := OPEN; ws_token := "tok";
     ws_sent := [OutAuth "tok" "en"]; ws_received := [] |}.

(** A user is signed in when the page starts; [connect()] waits for its
    token. *)
Definition awaiting_token : State :=
  run [EvInitClerk (Loaded None (Some "ann"))] (initial None blank_page).

(** The candidate data arrives with a stage, and the user then switches
    to Spanish. *)
Definition in_training : CandidateData := {| stage := Some "Training Required" |}.

Definition candidate_in_spanish : State :=
  run [EvCandidate (Fetched (Some in_training) true); EvSetLanguage "es"] awaiting_token.

(** The user has typed a draft into the input field of [authenticating]. *)
Definition draft_typed : State := run [EvInput "  hello "] authenticating.

(** [!token]: there is no token, or it is the empty string. *)
Definition no_token (token : option string) : bool :=
  match token with
  | Some t => negb (truthy_string t)
  | None => true
  end.

(** What may happen after the chat has gone quiet. *)
Definition later_events : list Event :=
  [EvSubmit; EvNewConversation; EvSetLanguage "es"; EvAuthChange None;
   EvAuthChange (Some "bob"); EvLogout].

(** The backend has answered the [auth] envelope of [authenticating]:
    it does not know the address. *)
Definition rejected : State := run [EvMessage 0 auth_failed_unregistered] authenticating.

Definition rejected_error : AuthError :=
  {| ae_message := emailNotRegistered i18n_en;
     ae_apply := Some (applyNow i18n_en);
     ae_display := d_block |}.

(** The provider calls the new listener back at once with the user it
    also reports as current. *)
Definition signed_in_twice : State :=
  run [EvInitClerk (Loaded (Some (Some "ann")) (Some "ann"))] (initial None blank_page).

(** The storage holds a code without a table when the page starts; the
    session gets as far as [Ready] all the same. *)
Definition french_ready : State := run ready_trace (initial (Some "fr") blank_page).

(** The user of a [Ready] session picks a language without a table. *)
Definition switched_to_french : State :=
  run (ready_trace ++ [EvSetLanguage "fr"])%list (initial None blank_page).

(* ------------------------------------------------------------------ *)
(** * Lists of sockets *)

Lemma map_alter {A B : Type} (g : A -> B) (f : A -> A) (id : nat) (l : list A) :
  (forall x, g (f x) = g x) -> map g (alter f id l) = map g l.
Proof.
  intro H. revert id. induction l as [|x r IH]; intros [|id]; cbn; try reflexivity.
  - now rewrite H.
  - now rewrite IH.
Qed.

Lemma nth_error_alter {A : Type} (f : A -> A) (id : nat) (l : list A) :
  nth_error (alter f id l) id = option_map f (nth_error l id).
Proof.
  revert id. induction l as [|x r IH]; intros [|id]; cbn; try reflexivity.
  apply IH.
Qed.

Lemma nth_error_alter_other {A : Type} (f : A -> A) (id j : nat) (l : list A) :
  id <> j -> nth_error (alter f id l) j = nth_error l j.
Proof.
  revert id j. induction l as [|x r IH]; intros [|id] [|j] H; cbn; try reflexivity.
  - now elim H.
  - apply IH. intro E. apply H. now rewrite E.
Qed.

Lemma live_count_alter_keep (f : WebSocket -> WebSocket) (id : nat) (l : list WebSocket) :
  (forall w, nth_error l id = Some w -> is_live (f w) = is_live w) ->
  live_count (alter f id l) = live_count l.
Proof.
  unfold live_count. revert id.
  induction l as [|x r IH]; intros [|id] H; cbn; try reflexivity.
  - rewrite (H x eq_refl). destruct (is_live x); reflexivity.
  - destruct (is_live x); cbn; rewrite (IH id); try reflexivity; exact H.
Qed.

Lemma live_count_alter_close (f : WebSocket -> WebSocket) (id : nat)
      (l : list WebSocket) (w : WebSocket) :
  nth_error l id = Some w -> is_live w = true -> is_live (f w) = false ->
  S (live_count (alter f id l)) = live_count l.
Proof.
  unfold live_count. revert id.
  induction l as [|x r IH]; intros [|id] H Hw Hf; cbn in *; try discriminate.
  - injection H as ->. now rewrite Hw, Hf.
  - destruct (is_live x); cbn; now rewrite <- (IH id H Hw Hf).
Qed.

Lemma live_count_new (l : list WebSocket) (token : string) :
  live_count (l ++ [new_WebSocket token])%list = S (live_count l).
Proof.
  unfold live_count. rewrite filter_app, length_app. cbn. lia.
Qed.

Lemma live_count_pos (id : nat) (l : list WebSocket) (w : WebSocket) :
  nth_error l id = Some w -> is_live w = true -> 1 <= live_count l.
Proof.
  unfold live_count. revert id.
  induction l as [|x r IH]; intros [|id] H Hw; cbn in *; try discriminate.
  - injection H as ->. rewrite Hw. cbn. lia.
  - destruct (is_live x); cbn; [lia | now apply (IH id)].
Qed.

Lemma live_count_zero (id : nat) (l : list WebSocket) (w : WebSocket) :
  live_count l = 0 -> nth_error l id = Some w -> is_live w = false.
Proof.
  intros H0 H. destruct (is_live w) eqn:E; [|reflexivity].
  pose proof (live_count_pos id l w H E). lia.
Qed.

(* ------------------------------------------------------------------ *)
(** * Proof support *)

Arguments i18n : simpl never.
Arguments trim : simpl never.
Arguments renderVerticalTimeline_rows : simpl never.
Arguments quickActionMessages : simpl never.
Arguments quickAction : simpl never.
Arguments quickActionMessage : simpl never.
Arguments inherited : simpl never.
Arguments stored_language : simpl never.
Arguments replace_newlines : simpl never.
Arguments is_str : simpl never.
Arguments member : simpl never.
Arguments truthy : simpl never.
Arguments truthy_string : simpl never.
Arguments live_count : simpl never.

(** Unfolds the methods down to the assignments they make. *)
Ltac unfold_handlers :=
  repeat progress unfold fire, initClerk, listener, onUserSignedIn, onUserSignedOut,
    connect_resume, connect, onopen, onmessage, onclose, onerror,
    reconnect_callback, loadCandidateData_resume, loadCandidateData_forbidden,
    loadCandidateData, sendMessage, sendMessage_object, handleQuickAction,
    newConversation,
    setLanguage, logout, showSignIn, showAuthError, showPortal, hideAuthError,
    renderVerticalTimeline, showQuickActions, hideQuickActions,
    showTypingIndicator, hideTypingIndicator, setInputEnabled, addMessage,
    this_socket_send, socket_send, socket_close, alter_socket, setTimeout,
    Clerk_signOut, console_error, try_catch, when, bind, ret, get, modify, throw in *.

(** Splits on the tests a handler makes, outermost first. *)
Ltac split_cases :=
  repeat (cbn in *;
    match goal with
    | |- context [match ?x with _ => _ end] =>
        lazymatch x with
        | context [match _ with _ => _ end] => fail
        | _ => destruct x eqn:?
        end
    end);
  cbn in *.

(* ------------------------------------------------------------------ *)
(** * The stage projection *)

Section StageLookup.

Variable st : string.
Hypothesis unknown : ~ In st (map key APPLICATION_STAGES).

Lemma findIndex_from_unknown (l : list Stage) (i : Z) :
  (forall s, In s l -> key s <> st) ->
  findIndex_from (fun s => key s =? st) l i = (-1)%Z.
Proof.
  revert i. induction l as [|x r IH]; intros i Hl; simpl.
  - reflexivity.
  - destruct (key x =? st) eqn:E.
    + apply String.eqb_eq in E. exfalso. apply (Hl x); [now left | exact E].
    + apply IH. intros s Hs. apply Hl. now right.
Qed.

Lemma currentIndex_unknown : currentIndex (Some st) = (-1)%Z.
Proof.
  unfold currentIndex. destruct (truthy_string st); [|reflexivity].
  apply findIndex_from_unknown. intros s Hs E. apply unknown.
  rewrite <- E. now apply in_map.
Qed.

End StageLookup.

(** C8. The stage projection is an exact-match lookup in the vocabulary of
    8 stages: each key is found at its own position; for the key
    "Candidate Interview" row 0 is completed, row 1 is active and rows 2
    to 7 are neither; for a stage that is not in the vocabulary (and for
    no stage at all) the index is -1 and every row is neither completed
    nor active. The projection is a total function: it never fails. *)
Theorem C8_stage_projection :
  List.length APPLICATION_STAGES = 8%nat
  /\ (forall i k, nth_error (map key APPLICATION_STAGES) i = Some k ->
        currentIndex (Some k) = Z.of_nat i)
  /\ currentIndex (Some "Candidate Interview") = 1%Z
  /\ (forall lang,
        map className (renderVerticalTimeline_rows lang (Some "Candidate Interview"))
        = ["timeline-row completed"; "timeline-row active"; "timeline-row";
           "timeline-row"; "timeline-row"; "timeline-row"; "timeline-row";
           "timeline-row"])
  /\ currentIndex None = (-1)%Z
  /\ (forall lang st, ~ In st (map key APPLICATION_STAGES) ->
        currentIndex (Some st) = (-1)%Z
        /\ Forall (fun r => row_completed r = false /\ row_active r = false
                            /\ row_plain r = true)
                  (renderVerticalTimeline_rows lang (Some st))).
Proof.
  split; [reflexivity|]. split.
  { intros i k H.
    do 8 (destruct i as [|i]; [injection H as <-; reflexivity|]).
    destruct i; discriminate H. }
  split; [reflexivity|]. split; [intro lang; reflexivity|].
  split; [reflexivity|].
  intros lang st H. split; [now apply currentIndex_unknown|].
  unfold renderVerticalTimeline_rows. rewrite (currentIndex_unknown st H).
  repeat constructor.
Qed.

Lemma C8_stage_projection_witness :
  ~ In "Hired" (map key APPLICATION_STAGES)
  /\ currentIndex (Some "Hired") = (-1)%Z
  /\ Forall (fun r => row_completed r = false /\ row_active r = false
                      /\ row_plain r = true)
            (renderVerticalTimeline_rows "en" (Some "Hired")).
Proof.
  assert (H : ~ In "Hired" (map key APPLICATION_STAGES)).
  { simpl. intros [E|[E|[E|[E|[E|[E|[E|[E|[]]]]]]]]]; discriminate E. }
  split; [exact H|].
  exact (proj2 (proj2 (proj2 (proj2 (proj2 C8_stage_projection)))) "en" "Hired" H).
Defined.

(* ------------------------------------------------------------------ *)
(** * Sending *)

Lemma trimStart_whitespace_only (v : string) :
  whitespace_only v = true -> trimStart v = "".
Proof.
  induction v as [|c r IH]; simpl; [reflexivity|].
  destruct (isWhiteSpace c); simpl; [exact IH | discriminate].
Qed.

Lemma trim_whitespace_only (v : string) :
  whitespace_only v = true -> trim v = "".
Proof.
  intro H. unfold trim. now rewrite (trimStart_whitespace_only v H).
Qed.

(** C10. With no explicit content and an input field that is empty or
    holds only white space, [sendMessage] returns having changed nothing:
    no envelope is sent, and the message log, the input field and the
    quick actions are as before, whatever the connection state. *)
Theorem C10_blank_input_is_ignored (s : State) :
  whitespace_only (messageInput_value (dom s)) = true ->
  sendMessage None s = Returned tt s.
Proof.
  intro H. unfold sendMessage, bind, get.
  now rewrite (trim_whitespace_only _ H).
Qed.

Lemma C10_blank_input_is_ignored_witness :
  let s := final (fire (EvInput "  ") (initial None blank_page)) in
  sendMessage None s = Returned tt s.
Proof.
  apply C10_blank_input_is_ignored. reflexivity.
Defined.

(* ------------------------------------------------------------------ *)
(** * Runs *)

Lemma run_app (t1 t2 : list Event) (s : State) :
  run (t1 ++ t2)%list s = run t2 (run t1 s).
Proof. unfold run. apply fold_left_app. Qed.

(** A property that holds at the start and is kept by every turn of the
    event loop holds all along. *)
Lemma run_invariant (P : State -> Prop) :
  (forall ev s, P s -> P (step ev s)) ->
  forall trace s, P s -> P (run trace s).
Proof.
  intros Hstep trace. induction trace as [|ev r IH]; intros s Hs; simpl.
  - exact Hs.
  - apply IH. now apply Hstep.
Qed.

Lemma reachable_invariant (P : State -> Prop) :
  (forall stored page, P (initial stored page)) ->
  (forall ev s, P s -> P (step ev s)) ->
  forall s, reachable s -> P s.
Proof.
  intros Hinit Hstep s (stored & page & trace & ->).
  apply run_invariant; [exact Hstep | apply Hinit].
Qed.

Lemma reachable_step (ev : Event) (s : State) :
  reachable s -> reachable (step ev s).
Proof.
  intros (stored & page & trace & ->).
  exists stored, page, (trace ++ [ev])%list. now rewrite run_app.
Qed.

Lemma reachable_run (trace : list Event) (s : State) :
  reachable s -> reachable (run trace s).
Proof.
  intros (stored & page & t0 & ->).
  exists stored, page, (t0 ++ trace)%list. now rewrite run_app.
Qed.

(* ------------------------------------------------------------------ *)
(** * The two connection flags *)

Lemma step_flags_exclusive (ev : Event) (s : State) :
  flags_exclusive s -> flags_exclusive (step ev s).
Proof.
  intro H. unfold step. destruct (enabled ev s); [|assumption].
  unfold flags_exclusive in *.
  destruct ev; unfold_handlers; split_cases;
    try assumption; try reflexivity;
    destruct (isConnecting (app s)), (isConnected (app s));
    simpl in *; congruence.
Qed.

(** C9. In every state that a sequence of events reaches from the start
    (sign-in and sign-out callbacks, tokens, socket open, message, error
    and close, timers, and the user's actions), [isConnecting] and
    [isConnected] are not both true. *)
Theorem C9_flags_never_both (stored : option string) (page : Dom) (trace : list Event) :
  let s := run trace (initial stored page) in
  isConnecting (app s) && isConnected (app s) = false.
Proof.
  apply (run_invariant flags_exclusive).
  - exact step_flags_exclusive.
  - reflexivity.
Qed.

(* ------------------------------------------------------------------ *)
(** * Connecting *)

(** C7. When the token provider has no credential (the token is [null],
    or empty), [connect()] opens no socket and returns without an error,
    and the session is as it was before the call: started with both flags
    down, [connect()] waits for the token with [isConnecting] up, and the
    arrival of no token puts back exactly the state before the call. *)
Theorem C7_no_credential (s : State) (token : option string) :
  truthy_token token = false ->
  isConnecting (app s) = false ->
  isConnected (app s) = false ->
  exists s1,
    connect s = Returned tt s1
    /\ pendingConnects (env s1) = S (pendingConnects (env s))
    /\ sockets (env s1) = sockets (env s)
    /\ connect_resume token s1 = Returned tt s
    /\ authState (final (connect_resume token s1)) = authState s.
Proof.
  intros Htok Hing Hed.
  destruct s as [a d e]. destruct a, e. simpl in Hing, Hed. subst.
  eexists. split; [reflexivity|]. split; [reflexivity|]. split; [reflexivity|].
  destruct token as [t|]; [destruct t; [|discriminate Htok]|];
    split; reflexivity.
Qed.

Lemma C7_no_credential_witness :
  let s := initial None blank_page in
  truthy_token None = false
  /\ exists s1,
       connect s = Returned tt s1
       /\ pendingConnects (env s1) = S (pendingConnects (env s))
       /\ sockets (env s1) = sockets (env s)
       /\ connect_resume None s1 = Returned tt s
       /\ authState (final (connect_resume None s1)) = authState s.
Proof.
  split; [reflexivity|].
  apply (C7_no_credential (initial None blank_page) None); reflexivity.
Defined.

(* ------------------------------------------------------------------ *)
(** * Example runs *)

Example authenticating_state :
  authState authenticating = Authenticating
  /\ app authenticating =
       {| socket := Some 0; clerkUser := Some "ann"; candidateData := None;
          language := "en"; isConnected := true; isConnecting := false;
          clerkMounted := false; authHandled := true |}
  /\ sockets (env authenticating) =
       [{| readyState := OPEN; ws_token := "tok";
           ws_sent := [OutAuth "tok" "en"]; ws_received := [] |}].
Proof. repeat split. Qed.

Example ready_after_success :
  authState (step (EvMessage 0 auth_success) authenticating) = Ready.
Proof. reflexivity. Qed.

(* ------------------------------------------------------------------ *)
(** * Sending while not ready *)

Lemma not_connected_of_authState (s : State) :
  authState s <> Ready -> authState s <> Authenticating ->
  isConnected (app s) = false.
Proof.
  unfold authState. destruct (isConnected (app s)); [|reflexivity].
  destruct (handshake_succeeded s); intros H1 H2; [now elim H1 | now elim H2].
Qed.

(** C4 as the code has it. In every state that is neither [Ready] nor
    [Authenticating] (the socket is not open: [isConnected] is false),
    [sendMessage] sends no envelope and returns, without an exception,
    having changed nothing. In the [Authenticating] window, with the
    socket open, a non-empty message is sent like in [Ready]: the call
    returns and the envelope is the last one on the socket. *)
Theorem C4_send_needs_open_socket :
  (forall s content,
      authState s <> Ready -> authState s <> Authenticating ->
      sendMessage content s = Returned tt s)
  /\ (forall s id w c,
        authState s = Authenticating ->
        socket (app s) = Some id ->
        nth_error (sockets (env s)) id = Some w ->
        readyState w = OPEN ->
        truthy_string c = true ->
        exists s',
          sendMessage (Some c) s = Returned tt s'
          /\ sockets (env s') = alter (ws_push_sent (OutMessage c)) id (sockets (env s))).
Proof.
  split.
  - intros s content H1 H2.
    pose proof (not_connected_of_authState s H1 H2) as E.
    unfold sendMessage, bind, get. rewrite E. cbn. now rewrite orb_true_r.
  - intros s id w c Ha Hs Hw Hr Hc.
    assert (E : isConnected (app s) = true).
    { unfold authState in Ha. destruct (isConnected (app s)); [reflexivity|].
      destruct (isConnecting (app s)); [discriminate|]. destruct (socket (app s)); discriminate. }
    unfold_handlers. cbn.
    repeat (rewrite ?Hc, ?E, ?Hs, ?Hw, ?Hr; cbn).
    eexists. split; reflexivity.
Qed.

Lemma C4_send_needs_open_socket_witness :
  (authState (initial None blank_page) <> Ready
   /\ authState (initial None blank_page) <> Authenticating
   /\ sendMessage (Some "hello") (initial None blank_page)
      = Returned tt (initial None blank_page))
  /\ exists s',
       sendMessage (Some "hello") authenticating = Returned tt s'
       /\ sockets (env s')
          = alter (ws_push_sent (OutMessage "hello")) 0 (sockets (env authenticating)).
Proof.
  split.
  - assert (H1 : authState (initial None blank_page) <> Ready) by discriminate.
    assert (H2 : authState (initial None blank_page) <> Authenticating) by discriminate.
    split; [exact H1|]. split; [exact H2|].
    exact (proj1 C4_send_needs_open_socket (initial None blank_page) (Some "hello") H1 H2).
  - apply (proj2 C4_send_needs_open_socket authenticating 0
             {| readyState := OPEN; ws_token := "tok";
                ws_sent := [OutAuth "tok" "en"]; ws_received := [] |} "hello");
      reflexivity.
Defined.

(** C4 fails as stated: after the socket opened and before any reply of
    the server, the session is [Authenticating], not [Ready], and
    [sendMessage("hello")] puts a message envelope on the connection. *)
Lemma C4_counterexample :
  authState authenticating = Authenticating
  /\ authState authenticating <> Ready
  /\ outbound authenticating = [[OutAuth "tok" "en"]]
  /\ exists s',
       sendMessage (Some "hello") authenticating = Returned tt s'
       /\ outbound s' = [[OutAuth "tok" "en"; OutMessage "hello"]].
Proof.
  split; [reflexivity|]. split; [discriminate|]. split; [reflexivity|].
  eexists. split; [vm_compute; reflexivity | reflexivity].
Qed.

(* ------------------------------------------------------------------ *)
(** * Inbound payloads *)

(** C5 as the code has it. For every payload that [JSON.parse] rejects,
    the message handler throws the [SyntaxError] before it touches
    anything: the payload is dropped and the connection stays open (the
    app, the page, the state and the traffic of every socket, the timers
    and the console are as before), but the handler does not return
    normally and it writes no log entry. *)
Theorem C5_undecodable_payload_throws (raw : string) (s : State) :
  onmessage (Unparseable raw) s = Threw SyntaxError s
  /\ forall id,
       let s' := step (EvMessage id (Unparseable raw)) s in
       app s' = app s /\ dom s' = dom s
       /\ map readyState (sockets (env s')) = map readyState (sockets (env s))
       /\ map ws_sent (sockets (env s')) = map ws_sent (sockets (env s))
       /\ timers (env s') = timers (env s)
       /\ console (env s') = console (env s).
Proof.
  split; [reflexivity|].
  intros id s'. subst s'. unfold step.
  destruct (enabled _ s); [|repeat split].
  cbn. repeat split; now apply map_alter.
Qed.

(** C5 fails as stated: on a payload that is not JSON the handler ends
    with an exception. *)
Lemma C5_counterexample :
  enabled (EvMessage 0 (Unparseable "<html>")) authenticating = true
  /\ returned (fire (EvMessage 0 (Unparseable "<html>")) authenticating) = false
  /\ returned (onmessage (Unparseable "<html>") authenticating) = false.
Proof. repeat split. Qed.

(* ------------------------------------------------------------------ *)
(** * One connection attempt at a time *)

Lemma enabled_live (id : nat) (s : State) :
  enabled (EvClose id) s = true ->
  exists w, nth_error (sockets (env s)) id = Some w /\ is_live w = true.
Proof.
  unfold enabled, socket_readyState.
  destruct (nth_error (sockets (env s)) id) as [w|]; cbn; [|discriminate].
  intro H. exists w. split; [reflexivity|].
  unfold is_live. destruct (readyState w); try reflexivity; discriminate.
Qed.

Lemma enabled_connecting (id : nat) (s : State) :
  enabled (EvOpen id) s = true ->
  exists w, nth_error (sockets (env s)) id = Some w /\ readyState w = CONNECTING.
Proof.
  unfold enabled, socket_readyState.
  destruct (nth_error (sockets (env s)) id) as [w|]; cbn; [|discriminate].
  intro H. exists w. split; [reflexivity|].
  destruct (readyState w); try reflexivity; discriminate.
Qed.

Lemma enabled_message_live (id : nat) (data : Inbound) (s : State) :
  enabled (EvMessage id data) s = true -> enabled (EvClose id) s = true.
Proof.
  unfold enabled. destruct (socket_readyState id s) as [[]|]; congruence.
Qed.

Lemma live_count_alter_live (f : WebSocket -> WebSocket) (id : nat)
      (l : list WebSocket) (w : WebSocket) :
  nth_error l id = Some w -> is_live w = true -> is_live (f w) = true ->
  live_count (alter f id l) = live_count l.
Proof.
  intros H Hw Hf. apply live_count_alter_keep.
  intros w' H'. rewrite H in H'. injection H' as <-. now rewrite Hw, Hf.
Qed.

Lemma is_live_ws_close (w : WebSocket) : is_live (ws_close w) = is_live w.
Proof. destruct w as [r ? ? ?]. destruct r; reflexivity. Qed.

(** Sending, receiving and starting to close leave a socket as live as
    it was. *)
Ltac live_keep :=
  repeat (rewrite live_count_alter_keep
            by (intros ? _; first [reflexivity | apply is_live_ws_close])).

(** Uses what is known: implications whose premise became trivial are
    applied, conjunctions are split, tests are turned into facts. *)
Ltac forward :=
  repeat match goal with
  | H : ?a = ?a -> _ |- _ => specialize (H eq_refl)
  | H : _ /\ _ |- _ => destruct H
  | H : Some _ = Some _ |- _ => injection H as H; try subst
  | H : negb _ = true |- _ => apply negb_true_iff in H
  | H : negb _ = false |- _ => apply negb_false_iff in H
  | H : Nat.ltb 0 _ = true |- _ => apply Nat.ltb_lt in H
  | H : nth_error [] ?i = Some _ |- _ => destruct i; discriminate H
  end.

(** Rewrites everywhere with the equations that give a field its value. *)
Ltac rewrite_facts :=
  repeat match goal with
  | E : ?t = ?v |- _ =>
      lazymatch v with
      | true => idtac | false => idtac | None => idtac | @nil _ => idtac | O => idtac
      | _ :: _ => idtac
      end;
      lazymatch t with
      | true => fail | false => fail | None => fail | @nil _ => fail | O => fail
      | _ :: _ => fail
      | _ => idtac
      end;
      progress (rewrite E in * )
  end; cbn in *.

Ltac tidy := repeat (progress (forward; rewrite_facts)).

Ltac live_facts :=
  live_keep;
  try match goal with
  | Hn : nth_error ?l ?id = Some ?w, Hl : is_live ?w = true
    |- context [live_count (alter ?f ?id ?l)] =>
      first [ rewrite (live_count_alter_live f id l w Hn Hl eq_refl)
            | pose proof (live_count_alter_close f id l w Hn Hl eq_refl) ]
  end;
  rewrite ?live_count_new.

(** Closes the goal [Inv s'] for the state [s'] a handler left. *)
Ltac close_inv :=
  tidy; try discriminate; try congruence;
  constructor; unfold live in *; cbn in *;
  intros;
  repeat match goal with Hi : ?P -> _, Hp : ?P |- _ => specialize (Hi Hp) end;
  tidy; live_facts; unfold live_count in *; rewrite ?length_app in *; cbn in *;
  first
    [ assumption
    | discriminate
    | lia
    | exfalso; lia
    | congruence
    | tauto
    | repeat split; first [congruence | lia] ].

Lemma initial_Inv (stored : option string) (page : Dom) : Inv (initial stored page).
Proof.
  constructor; unfold live; cbn; intros;
    first [ lia | discriminate | now repeat split | cbv; lia ].
Qed.

Lemma step_Inv (ev : Event) (s : State) : Inv s -> Inv (step ev s).
Proof.
  intros [Hone Hfresh Huser Hnobody Hinit Hconn Hclerk Hlisten Hidle]. unfold step.
  destruct (enabled ev s) eqn:En; [|constructor; assumption].
  unfold live in *.
  destruct ev.
  - unfold enabled in En. tidy. unfold_handlers; split_cases; close_inv.
  - unfold enabled in En. tidy. unfold_handlers; split_cases; close_inv.
  - unfold enabled in En. forward. unfold_handlers; split_cases; close_inv.
  - apply enabled_connecting in En. destruct En as (w & Hw & Hr).
    assert (Hl : is_live w = true) by (unfold is_live; now rewrite Hr).
    pose proof (live_count_pos id _ w Hw Hl) as Hpos.
    unfold_handlers; split_cases; close_inv.
  - apply enabled_message_live, enabled_live in En. destruct En as (w & Hw & Hl).
    pose proof (live_count_pos id _ w Hw Hl) as Hpos.
    unfold_handlers; split_cases; close_inv.
  - apply enabled_live in En. destruct En as (w & Hw & Hl).
    pose proof (live_count_pos id _ w Hw Hl) as Hpos.
    unfold_handlers; split_cases; close_inv.
  - apply enabled_live in En. destruct En as (w & Hw & Hl).
    pose proof (live_count_pos id _ w Hw Hl) as Hpos.
    unfold_handlers; split_cases; close_inv.
  - unfold enabled in En.
    destruct (timers (env s)) as [|delay rest] eqn:Et; [discriminate|].
    unfold_handlers; split_cases; close_inv.
  - unfold enabled in En; forward; unfold_handlers; split_cases; close_inv.
  - unfold enabled in En; forward; unfold_handlers; split_cases; close_inv.
  - unfold enabled in En; forward; unfold_handlers; split_cases; close_inv.
  - unfold enabled in En; forward; unfold_handlers; split_cases; close_inv.
  - unfold enabled in En; forward; unfold_handlers; split_cases; close_inv.
  - unfold enabled in En; forward; unfold_handlers; split_cases; close_inv.
  - unfold enabled in En; forward; unfold_handlers; split_cases; close_inv.
  - unfold enabled in En; forward; unfold_handlers; split_cases; close_inv.
Qed.

Lemma run_Inv (stored : option string) (page : Dom) (trace : list Event) :
  Inv (run trace (initial stored page)).
Proof.
  apply (run_invariant Inv); [exact step_Inv | apply initial_Inv].
Qed.

Lemma reachable_Inv (s : State) : reachable s -> Inv s.
Proof. intros (stored & page & trace & ->). apply run_Inv. Qed.

Lemma lang_ok_i18n (s : State) :
  lang_ok s -> exists strings, i18n (language (app s)) = Some strings.
Proof. intros [E|E]; rewrite E; eexists; reflexivity. Qed.

Lemma live_enabled_close (id : nat) (s : State) :
  enabled (EvClose id) s = true -> 1 <= live s.
Proof.
  intro En. apply enabled_live in En. destruct En as (w & Hw & Hl).
  exact (live_count_pos id _ w Hw Hl).
Qed.

Lemma live_count_witness (l : list WebSocket) :
  1 <= live_count l ->
  exists id w, nth_error l id = Some w /\ is_live w = true.
Proof.
  unfold live_count. induction l as [|x r IH]; cbn; [lia|].
  destruct (is_live x) eqn:E; cbn; intro H.
  - exists 0, x. now split.
  - destruct (IH H) as (id & w & Hw & Hl). exists (S id), w. now split.
Qed.

Lemma enabled_of_live (id : nat) (s : State) (w : WebSocket) :
  nth_error (sockets (env s)) id = Some w -> is_live w = true ->
  enabled (EvClose id) s = true.
Proof.
  intros Hw Hl. unfold enabled, socket_readyState. rewrite Hw. cbn.
  unfold is_live in Hl. destruct (readyState w); try reflexivity; discriminate Hl.
Qed.

Lemma connected_of_Ready (s : State) :
  authState s = Ready -> isConnected (app s) = true.
Proof.
  unfold authState. destruct (isConnected (app s)); [reflexivity|].
  destruct (isConnecting (app s)); [discriminate|].
  destruct (socket (app s)); discriminate.
Qed.

Lemma enabled_open_live (id : nat) (s : State) :
  enabled (EvOpen id) s = true -> enabled (EvClose id) s = true.
Proof.
  unfold enabled. destruct (socket_readyState id s) as [[]|]; congruence.
Qed.

(** What the close of a connection leaves, in a reachable state whose
    language has something in [i18n]. *)
Lemma step_close (id : nat) (s : State) :
  Inv s -> enabled (EvClose id) s = true ->
  i18n (language (app s)) <> None ->
  let s1 := step (EvClose id) s in
  timers (env s1) = [3000] /\ pendingConnects (env s1) = 0
  /\ isConnected (app s1) = false /\ isConnecting (app s1) = false
  /\ clerkUser (app s1) <> None.
Proof.
  intros [Hone Hfresh Huser Hnobody Hinit Hconn Hclerk Hlisten Hidle] En Hl s1. subst s1.
  pose proof (live_enabled_close id s En) as Hlive.
  destruct (i18n (language (app s))) as [strings|] eqn:Hs; [clear Hl|now elim Hl].
  assert (Ht : timers (env s) = []) by (destruct (timers (env s)); [reflexivity | cbn in Hone; lia]).
  assert (Hp : pendingConnects (env s) = 0) by lia.
  assert (Ha : authHandled (app s) = true).
  { destruct (authHandled (app s)); [reflexivity|].
    destruct (Hfresh eq_refl) as (E & _). unfold live in Hlive. rewrite E in Hlive.
    cbv in Hlive. lia. }
  unfold step. rewrite En. unfold_handlers. cbn. rewrite Hs. cbn.
  rewrite Ht, Hp. repeat split. now apply Huser.
Qed.

(** The same close when [i18n] has nothing under the language:
    [setInputEnabled] throws before the timer is set, and the page is
    left with nothing that would connect again. *)
Lemma step_close_throws (id : nat) (s : State) :
  Inv s -> enabled (EvClose id) s = true ->
  i18n (language (app s)) = None ->
  fire (EvClose id) s = Threw TypeError (step (EvClose id) s)
  /\ timers (env (step (EvClose id) s)) = []
  /\ quiescent (step (EvClose id) s).
Proof.
  intros HI En Hs.
  pose proof HI as [Hone Hfresh Huser Hnobody Hinit Hconn Hclerk Hlisten Hidle].
  pose proof (live_enabled_close id s En) as Hlive.
  assert (Ht : timers (env s) = []) by (destruct (timers (env s)); [reflexivity | cbn in Hone; lia]).
  assert (Hp : pendingConnects (env s) = 0) by lia.
  assert (Ha : authHandled (app s) = true).
  { destruct (authHandled (app s)); [reflexivity|].
    destruct (Hfresh eq_refl) as (E & _). unfold live in Hlive. rewrite E in Hlive.
    cbv in Hlive. lia. }
  assert (H1 : live s = 1) by lia.
  apply enabled_live in En as Hw. destruct Hw as (w & Hw & Hlw).
  assert (Hc : live_count (alter (ws_set_readyState CLOSED) id (sockets (env s))) = 0).
  { pose proof (live_count_alter_close (ws_set_readyState CLOSED) id _ w Hw Hlw eq_refl).
    unfold live in H1. lia. }
  unfold step. rewrite En. unfold_handlers. cbn. rewrite Hs. cbn.
  split; [reflexivity|]. split; [exact Ht|].
  unfold quiescent, live. cbn. now repeat split.
Qed.

(** The firing of the timer that a close left. *)
Lemma step_timer_reconnects (s1 : State) :
  timers (env s1) = [3000] -> pendingConnects (env s1) = 0 ->
  isConnected (app s1) = false -> isConnecting (app s1) = false ->
  clerkUser (app s1) <> None ->
  let s2 := step EvTimer s1 in
  timers (env s2) = [] /\ pendingConnects (env s2) = 1
  /\ isConnecting (app s2) = true /\ sockets (env s2) = sockets (env s1).
Proof.
  intros Ht Hp Hed Hing Hu s2. subst s2.
  unfold step, enabled. rewrite Ht. unfold_handlers. cbn.
  destruct (clerkUser (app s1)) as [u|]; [|now elim Hu].
  repeat (rewrite ?Hed, ?Hing, ?Ht, ?Hp; cbn). repeat split.
Qed.

(** Once nothing is awaited, no socket is left and no timer is set,
    nothing connects any more. *)
Lemma step_quiescent (ev : Event) (s : State) :
  Inv s -> quiescent s ->
  quiescent (step ev s) /\ sockets (env (step ev s)) = sockets (env s).
Proof.
  intros HI (Ha & Hp & Hl & Ht).
  pose proof HI as [Hone Hfresh Huser Hnobody Hinit Hconn Hclerk Hlisten Hidle].
  unfold step. destruct (enabled ev s) eqn:En; [|now repeat split].
  assert (Hc : isConnected (app s) = false).
  { destruct (isConnected (app s)); [specialize (Hconn eq_refl); lia | reflexivity]. }
  destruct (initDone (env s)) eqn:Hi;
    [|destruct (Hinit eq_refl) as [Hx _]; congruence].
  unfold quiescent, live in *. clear HI.
  destruct ev;
    try (exfalso;
         first [ pose proof (live_enabled_close _ s (enabled_open_live _ s En)) as Hx
               | pose proof (live_enabled_close _ s (enabled_message_live _ _ s En)) as Hx
               | pose proof (live_enabled_close _ s En) as Hx ];
         unfold live in Hx; lia);
    unfold enabled in En; try (rewrite ?Hp, ?Ht, ?Hi in En; discriminate En);
    unfold_handlers; split_cases; tidy; try discriminate; try congruence;
    try (rewrite orb_true_r in *; discriminate);
    repeat split; try assumption; try reflexivity; try congruence.
Qed.

Lemma run_quiescent (trace : list Event) (s : State) :
  Inv s -> quiescent s ->
  quiescent (run trace s) /\ sockets (env (run trace s)) = sockets (env s).
Proof.
  revert s. induction trace as [|ev trace IH]; intros s HI Hq; [now split|].
  change (run (ev :: trace) s) with (run trace (step ev s)).
  destruct (step_quiescent ev s HI Hq) as [Hq' Hs'].
  destruct (IH (step ev s) (step_Inv ev s HI) Hq') as [Hq2 Hs2].
  split; [exact Hq2 | now rewrite Hs2].
Qed.


(** X23. Along every sequence of events there is at most one pending
    reconnect timer. While one is pending no connection is left that
    could close and no attempt is under way. A [Ready] session has
    exactly one connection that can close, and, with a language under
    which [i18n] has something, its close leaves exactly one timer, with
    the delay of 3000 milliseconds, whose firing starts exactly one
    connection attempt. *)
Theorem single_reconnect_timer (stored : option string) (page : Dom)
        (trace : list Event) :
  let s := run trace (initial stored page) in
  List.length (timers (env s)) <= 1
  /\ (timers (env s) <> [] ->
      live s = 0 /\ pendingConnects (env s) = 0
      /\ forall id,
           enabled (EvClose id) s = false
           /\ timers (env (step (EvClose id) s)) = timers (env s))
  /\ (authState s = Ready ->
      live s = 1 /\ exists id, enabled (EvClose id) s = true)
  /\ (forall id, enabled (EvClose id) s = true ->
      i18n (language (app s)) <> None ->
        timers (env (step (EvClose id) s)) = [3000]
        /\ timers (env (run [EvClose id; EvTimer] s)) = []
        /\ pendingConnects (env (run [EvClose id; EvTimer] s)) = 1
        /\ live (run [EvClose id; EvTimer] s) = 0).
Proof.
  intro s. pose proof (run_Inv stored page trace) as HI. fold s in HI.
  split; [|split; [|split]].
  - pose proof (inv_single s HI). lia.
  - intros Hne. pose proof (inv_single s HI) as H1.
    assert (Hl : live s = 0 /\ pendingConnects (env s) = 0).
    { destruct (timers (env s)); [now elim Hne | cbn in H1; lia]. }
    split; [apply Hl|]. split; [apply Hl|]. intro id.
    assert (En : enabled (EvClose id) s = false).
    { destruct (enabled (EvClose id) s) eqn:En; [|reflexivity].
      pose proof (live_enabled_close id s En). lia. }
    split; [exact En|]. unfold step. now rewrite En.
  - intro Hr. pose proof (inv_connected s HI (connected_of_Ready s Hr)) as Hl.
    pose proof (inv_single s HI) as H1. split; [lia|].
    destruct (live_count_witness _ Hl) as (id & w & Hw & Hlw).
    exists id. exact (enabled_of_live id s w Hw Hlw).
  - intros id En Hs.
    destruct (step_close id s HI En Hs) as (Ht & Hp & Hed & Hing & Hu).
    split; [exact Ht|].
    destruct (step_timer_reconnects _ Ht Hp Hed Hing Hu) as (Ht2 & Hp2 & _ & _).
    cbn [run fold_left]. split; [exact Ht2|]. split; [exact Hp2|].
    assert (HI2 : Inv (step EvTimer (step (EvClose id) s))) by (do 2 apply step_Inv; exact HI).
    pose proof (inv_single _ HI2). lia.
Qed.

Lemma single_reconnect_timer_witness :
  (let s := run ready_trace (initial None blank_page) in
   authState s = Ready
   /\ enabled (EvClose 0) s = true
   /\ i18n (language (app s)) <> None
   /\ timers (env (step (EvClose 0) s)) = [3000]
   /\ timers (env (run [EvClose 0; EvTimer] s)) = []
   /\ pendingConnects (env (run [EvClose 0; EvTimer] s)) = 1
   /\ live (run [EvClose 0; EvTimer] s) = 0)
  /\ (let s := run closed_trace (initial None blank_page) in
      timers (env s) <> []
      /\ live s = 0 /\ pendingConnects (env s) = 0
      /\ forall id,
           enabled (EvClose id) s = false
           /\ timers (env (step (EvClose id) s)) = timers (env s)).
Proof.
  split.
  - split; [vm_compute; reflexivity|]. split; [vm_compute; reflexivity|].
    assert (Hs : i18n (language (app (run ready_trace (initial None blank_page)))) <> None)
      by (vm_compute; discriminate).
    split; [exact Hs|].
    apply (proj2 (proj2 (proj2
             (single_reconnect_timer None blank_page ready_trace))) 0);
      [vm_compute; reflexivity | exact Hs].
  - assert (H : timers (env (run closed_trace (initial None blank_page))) <> []).
    { intro E. vm_compute in E. discriminate E. }
    split; [exact H|].
    exact (proj1 (proj2 (single_reconnect_timer None blank_page closed_trace)) H).
Defined.

Lemma reachable_french_ready : reachable french_ready.
Proof. exists (Some "fr"), blank_page, ready_trace. reflexivity. Qed.

Lemma reachable_switched_to_french : reachable switched_to_french.
Proof.
  exists None, blank_page, (ready_trace ++ [EvSetLanguage "fr"])%list. reflexivity.
Qed.

(** A [Ready] state whose language has nothing in [i18n]: the close of
    its connection throws and sets no timer, and nothing that happens
    afterwards sets one or makes a socket. *)
Lemma no_reconnect_without_strings (s : State) (later : list Event) :
  reachable s ->
  enabled (EvClose 0) s = true ->
  i18n (language (app s)) = None ->
  fire (EvClose 0) s = Threw TypeError (step (EvClose 0) s)
  /\ timers (env (step (EvClose 0) s)) = []
  /\ timers (env (run later (step (EvClose 0) s))) = []
  /\ pendingConnects (env (run later (step (EvClose 0) s))) = 0
  /\ sockets (env (run later (step (EvClose 0) s))) = sockets (env (step (EvClose 0) s)).
Proof.
  intros Hr En Hs. pose proof (reachable_Inv s Hr) as HI.
  destruct (step_close_throws 0 s HI En Hs) as (Hf & Ht & Hq).
  destruct (run_quiescent later _ (step_Inv _ s HI) Hq) as [(_ & Hp & _ & Ht2) Hs2].
  repeat split; assumption.
Qed.

(** C3. The code sets no reconnect timer at all when the language in
    use has no table. With the code [fr] in the storage the session
    gets to [Ready]; the close of its connection throws in
    [setInputEnabled], before [setTimeout] is reached: no timer is
    pending after the close, and whatever happens later none is set and
    no socket is made. The same holds when the language is changed to
    [fr] in a [Ready] session that began in English. *)
Theorem C3_close_without_table_sets_no_timer (later : list Event) :
  (authState french_ready = Ready
   /\ enabled (EvClose 0) french_ready = true
   /\ fire (EvClose 0) french_ready = Threw TypeError (step (EvClose 0) french_ready)
   /\ timers (env (step (EvClose 0) french_ready)) = []
   /\ timers (env (run later (step (EvClose 0) french_ready))) = []
   /\ pendingConnects (env (run later (step (EvClose 0) french_ready))) = 0
   /\ sockets (env (run later (step (EvClose 0) french_ready)))
      = sockets (env (step (EvClose 0) french_ready)))
  /\ (authState switched_to_french = Ready
      /\ enabled (EvClose 0) switched_to_french = true
      /\ fire (EvClose 0) switched_to_french
         = Threw TypeError (step (EvClose 0) switched_to_french)
      /\ timers (env (step (EvClose 0) switched_to_french)) = []
      /\ timers (env (run later (step (EvClose 0) switched_to_french))) = []
      /\ pendingConnects (env (run later (step (EvClose 0) switched_to_french))) = 0
      /\ sockets (env (run later (step (EvClose 0) switched_to_french)))
         = sockets (env (step (EvClose 0) switched_to_french))).
Proof.
  split.
  - split; [vm_compute; reflexivity|].
    assert (En : enabled (EvClose 0) french_ready = true) by (vm_compute; reflexivity).
    assert (Hs : i18n (language (app french_ready)) = None) by (vm_compute; reflexivity).
    split; [exact En|].
    exact (no_reconnect_without_strings french_ready later reachable_french_ready En Hs).
  - split; [vm_compute; reflexivity|].
    assert (En : enabled (EvClose 0) switched_to_french = true) by (vm_compute; reflexivity).
    assert (Hs : i18n (language (app switched_to_french)) = None) by (vm_compute; reflexivity).
    split; [exact En|].
    exact (no_reconnect_without_strings switched_to_french later
             reachable_switched_to_french En Hs).
Qed.

(* ------------------------------------------------------------------ *)
(** * At most one connection *)

Lemma connect_guard (s : State) :
  isConnecting (app s) || isConnected (app s) = true -> connect s = Returned tt s.
Proof. intro H. unfold connect, bind, get. now rewrite H. Qed.

Lemma connect_again (s : State) :
  connect (final (connect s)) = Returned tt (final (connect s)).
Proof.
  apply connect_guard. unfold_handlers.
  destruct (isConnecting (app s) || isConnected (app s)) eqn:E; cbn; [exact E | reflexivity].
Qed.

Lemma connect_times_once (n : nat) (s : State) :
  connect_times (S n) s = final (connect s).
Proof.
  induction n as [|n IH]; [reflexivity|].
  change (connect_times (S (S n)) s) with (connect_times (S n) (final (connect s))).
  cbn [connect_times] in *. rewrite connect_again. cbn [final]. exact IH.
Qed.

(** C6. A [connect()] called while the session is [Connecting],
    [Authenticating] or [Ready] returns at once having changed nothing:
    no token is asked for and no socket is made. So any number of calls
    in a row does what the first one does, and that one makes no socket
    by itself; and along every sequence of events from the start there
    is at most one connection that has not closed, counting an attempt
    that still waits for its token. *)
Theorem C6_single_connection :
  (forall s,
      authState s = Connecting \/ authState s = Authenticating \/ authState s = Ready ->
      connect s = Returned tt s)
  /\ (forall n s,
        connect_times (S n) s = final (connect s)
        /\ sockets (env (connect_times (S n) s)) = sockets (env s))
  /\ (forall stored page trace,
        let s := run trace (initial stored page) in
        pendingConnects (env s) + live s <= 1).
Proof.
  split; [|split].
  - intros s H. apply connect_guard. unfold authState in H.
    destruct (isConnected (app s)); [now rewrite orb_true_r|].
    destruct (isConnecting (app s)); [reflexivity|].
    destruct (socket (app s)); destruct H as [H|[H|H]]; discriminate H.
  - intros n s. rewrite connect_times_once. split; [reflexivity|].
    unfold_handlers. destruct (isConnecting (app s) || isConnected (app s)); reflexivity.
  - intros stored page trace s.
    pose proof (inv_single s (run_Inv stored page trace)). lia.
Qed.

Lemma C6_single_connection_witness :
  (authState authenticating = Connecting \/ authState authenticating = Authenticating
   \/ authState authenticating = Ready)
  /\ connect authenticating = Returned tt authenticating
  /\ live authenticating = 1.
Proof.
  assert (H : authState authenticating = Connecting
              \/ authState authenticating = Authenticating
              \/ authState authenticating = Ready) by (right; left; reflexivity).
  split; [exact H|]. split; [|reflexivity].
  exact (proj1 C6_single_connection authenticating H).
Defined.

(* ------------------------------------------------------------------ *)
(** * The identity that the backend does not know *)

(** What the branch [auth_failed] of the message handler does with the
    reason [email_not_registered], in any state with a loaded provider
    and a known language. *)
Lemma onmessage_identity_unverified (s : State) (strings : Strings) (data : Json) :
  clerk (env s) = true ->
  i18n (language (app s)) = Some strings ->
  identity_unverified data ->
  exists s', onmessage (Parsed data) s = Returned tt s'
             /\ language (app s') = language (app s)
             /\ signed_out_with_error strings s s'.
Proof.
  intros Hc Hs [Ht Hr].
  destruct data; try (cbv in Ht; discriminate Ht).
  unfold_handlers. cbn. rewrite Ht.
  destruct (is_str (member "type" (JObj fields)) "auth_success") eqn:E.
  { exfalso. revert Ht E. unfold is_str.
    destruct (member "type" (JObj fields)) as [[]|]; try discriminate.
    intros H1 H2. apply String.eqb_eq in H1, H2. subst. discriminate. }
  rewrite Hr. cbn.
  destruct (clerkMounted (app s)) eqn:Em;
    repeat (rewrite ?Hc, ?Hs, ?Em; cbn);
    eexists; (split; [reflexivity|]); (split; [reflexivity|]); repeat split;
    cbn; destruct (authErrorContainer (dom s)); reflexivity.
Qed.

(** What the 403 branch of [loadCandidateData] does, before and after
    its [await]. *)
Lemma forbidden_signs_out (s : State) (strings : Strings) :
  clerk (env s) = true ->
  i18n (language (app s)) = Some strings ->
  exists s1 s2,
    loadCandidateData_resume Forbidden s = Returned tt s1
    /\ signOutCalls (env s1) = S (signOutCalls (env s))
    /\ pendingSignOuts (env s1) = S (pendingSignOuts (env s))
    /\ loadCandidateData_forbidden true s1 = Returned tt s2
    /\ signed_out_with_error strings s s2.
Proof.
  intros Hc Hs. unfold_handlers. cbn. rewrite Hc. cbn.
  destruct (clerkMounted (app s)) eqn:Em;
    do 2 eexists; (split; [reflexivity|]);
    (split; [reflexivity|]); (split; [reflexivity|]);
    repeat (rewrite ?Hc, ?Hs, ?Em; cbn);
    (split; [reflexivity|]); repeat split;
    cbn; destruct (authErrorContainer (dom s)); reflexivity.
Qed.

Lemma socket_readyState_map (id : nat) (s s' : State) :
  map readyState (sockets (env s')) = map readyState (sockets (env s)) ->
  socket_readyState id s' = socket_readyState id s.
Proof.
  intro H. unfold socket_readyState. now rewrite <- !nth_error_map, H.
Qed.

Lemma enabled_close_map (id : nat) (s s' : State) :
  map readyState (sockets (env s')) = map readyState (sockets (env s)) ->
  enabled (EvClose id) s' = enabled (EvClose id) s.
Proof.
  intro H. unfold enabled. now rewrite (socket_readyState_map id s s' H).
Qed.

Lemma signed_in_of_socket (id : nat) (s : State) :
  Inv s -> enabled (EvClose id) s = true -> authHandled (app s) = true.
Proof.
  intros HI En. destruct (authHandled (app s)) eqn:E; [reflexivity|].
  destruct (inv_fresh s HI E) as (E0 & _).
  apply enabled_live in En. destruct En as (w & Hw & _).
  rewrite E0 in Hw. destruct id; discriminate Hw.
Qed.

(** C1 as the code has it. Along every sequence of events, in a state
    whose language is one of the two that have a table: when an
    [auth_failed] envelope with the reason [email_not_registered] is
    delivered, and when the candidate-data request ends with a 403, the
    provider's sign-out is called exactly once and the sign-in screen is
    shown with the error message of that table and its apply link; the
    handler returns normally. That handling sets no timer and starts no
    connection attempt, and it leaves the sockets and the flags as they
    were: the connection is still open. The reconnect timer of 3000
    milliseconds is set by the close handler when that connection closes
    afterwards, as after every close. *)
Theorem C1_identity_unverified (stored : option string) (page : Dom)
        (trace : list Event) :
  let s := run trace (initial stored page) in
  lang_ok s ->
  exists strings,
    i18n (language (app s)) = Some strings
    /\ (strings = i18n_en \/ strings = i18n_es)
    /\ (forall id data,
          enabled (EvMessage id (Parsed data)) s = true ->
          identity_unverified data ->
          let s' := step (EvMessage id (Parsed data)) s in
          returned (fire (EvMessage id (Parsed data)) s) = true
          /\ signed_out_with_error strings s s'
          /\ enabled (EvClose id) s' = true
          /\ timers (env (step (EvClose id) s')) = [3000])
    /\ (enabled (EvCandidate Forbidden) s = true ->
        let s1 := step (EvCandidate Forbidden) s in
        let s2 := step (EvSignOutSettled true) s1 in
        returned (fire (EvCandidate Forbidden) s) = true
        /\ signOutCalls (env s1) = S (signOutCalls (env s))
        /\ enabled (EvSignOutSettled true) s1 = true
        /\ returned (fire (EvSignOutSettled true) s1) = true
        /\ signed_out_with_error strings s s2).
Proof.
  intros s Hlang. pose proof (run_Inv stored page trace) as HI. fold s in HI.
  destruct (lang_ok_i18n s Hlang) as (strings & Hs).
  exists strings. split; [exact Hs|]. split.
  { destruct Hlang as [E|E]; rewrite E in Hs; injection Hs as <-; auto. }
  split.
  - intros id data En Hd s'.
    pose proof (enabled_message_live id _ s En) as Ec.
    pose proof (inv_clerk s HI (signed_in_of_socket id s HI Ec)) as Hc.
    set (s0 := upd_env (fun e => set_sockets
                 (alter (ws_push_received (Parsed data)) id (sockets e)) e) s).
    destruct (onmessage_identity_unverified s0 strings data Hc Hs Hd)
      as (s1 & E1 & Hlg & H1 & H2 & H3 & H4 & H5 & H6 & H7 & H8 & H9 & H10 & H11).
    assert (Ef : fire (EvMessage id (Parsed data)) s = Returned tt s1).
    { unfold fire, alter_socket, bind, modify. exact E1. }
    assert (Es : s' = s1).
    { unfold s', step. now rewrite En, Ef. }
    assert (Hm : map readyState (sockets (env s1)) = map readyState (sockets (env s))).
    { rewrite H7. unfold s0. cbn. now apply map_alter. }
    rewrite Ef, Es. split; [reflexivity|]. split.
    { repeat split; try assumption.
      unfold outbound in *. rewrite H8. unfold s0. cbn. now apply map_alter. }
    assert (Ec1 : enabled (EvClose id) s1 = true)
      by (now rewrite (enabled_close_map id s s1 Hm)).
    split; [exact Ec1|].
    assert (HI1 : Inv s1) by (rewrite <- Es; apply step_Inv; exact HI).
    apply (step_close id s1 HI1 Ec1).
    rewrite Hlg. unfold s0. cbn. rewrite Hs. discriminate.
  - intros En s1 s2.
    assert (Ha : authHandled (app s) = true).
    { destruct (authHandled (app s)) eqn:E; [reflexivity|].
      destruct (inv_idle s HI E) as (E0 & _).
      unfold enabled in En. rewrite E0 in En. discriminate En. }
    pose proof (inv_clerk s HI Ha) as Hc.
    destruct (forbidden_signs_out s strings Hc Hs)
      as (t1 & t2 & E1 & Hn & Hp & E2 & H2).
    assert (Es1 : s1 = t1).
    { unfold s1, step. rewrite En. cbn [fire]. now rewrite E1. }
    assert (En2 : enabled (EvSignOutSettled true) t1 = true).
    { unfold enabled. now rewrite Hp. }
    assert (Es2 : s2 = t2).
    { unfold s2, step. rewrite Es1, En2. cbn [fire]. now rewrite E2. }
    cbn [fire]. rewrite E1, Es1, Es2. cbn [fire]. rewrite E2.
    repeat split; try assumption; apply H2.
Qed.

Lemma C1_identity_unverified_witness :
  let s := run sign_in_and_open (initial None blank_page) in
  let data := JObj [("type", JStr "auth_failed");
                    ("reason", JStr "email_not_registered")] in
  lang_ok s
  /\ enabled (EvMessage 0 (Parsed data)) s = true
  /\ identity_unverified data
  /\ exists strings,
       i18n (language (app s)) = Some strings
       /\ returned (fire (EvMessage 0 (Parsed data)) s) = true
       /\ signed_out_with_error strings s (step (EvMessage 0 (Parsed data)) s)
       /\ enabled (EvClose 0) (step (EvMessage 0 (Parsed data)) s) = true
       /\ timers (env (step (EvClose 0) (step (EvMessage 0 (Parsed data)) s))) = [3000].
Proof.
  intros s data.
  assert (Hl : lang_ok s) by (left; vm_compute; reflexivity).
  assert (En : enabled (EvMessage 0 (Parsed data)) s = true) by (vm_compute; reflexivity).
  assert (Hd : identity_unverified data) by (split; vm_compute; reflexivity).
  split; [exact Hl|]. split; [exact En|]. split; [exact Hd|].
  destruct (C1_identity_unverified None blank_page sign_in_and_open Hl)
    as (strings & Hs & _ & Hm & _).
  exists strings. split; [exact Hs|]. exact (Hm 0 data En Hd).
Defined.

(** C1 fails as stated: after the failure envelope the provider's
    sign-out was called once, but the connection is still open, its close
    sets the reconnect timer, and the firing of that timer calls
    [connect()], which goes as far as asking for a token. *)
Lemma C1_counterexample :
  let s := step (EvMessage 0 auth_failed_unregistered) authenticating in
  signOutCalls (env s) = 1
  /\ socket_readyState 0 s = Some OPEN
  /\ timers (env s) = []
  /\ timers (env (step (EvClose 0) s)) = [3000]
  /\ pendingConnects (env (run [EvClose 0; EvTimer] s)) = 1
  /\ isConnecting (app (run [EvClose 0; EvTimer] s)) = true.
Proof. repeat split. Qed.

(* ------------------------------------------------------------------ *)
(** * Signing out *)

(** What [onUserSignedOut] does when it runs: it forgets the user, puts
    both flags down, starts closing the current socket and drops it, and
    shows the sign-in screen; a reconnect timer that fires afterwards does
    nothing. *)
Lemma onUserSignedOut_resets (s : State) :
  exists s',
    onUserSignedOut s = Returned tt s'
    /\ clerkUser (app s') = None /\ authHandled (app s') = false
    /\ isConnected (app s') = false /\ isConnecting (app s') = false
    /\ socket (app s') = None
    /\ loginScreen (dom s') = d_flex /\ portalScreen (dom s') = d_none
    /\ sockets (env s')
       = match socket (app s) with
         | Some id => alter ws_close id (sockets (env s))
         | None => sockets (env s)
         end
    /\ reconnect_callback s' = Returned tt s'.
Proof.
  unfold_handlers. cbn.
  destruct (socket (app s)) eqn:Es; cbn;
    destruct (clerk (env s) && negb (clerkMounted (app s))); cbn;
    eexists; (split; [reflexivity|]); repeat split;
    cbn; rewrite ?Es; try reflexivity;
    destruct (authErrorContainer (dom s)); reflexivity.
Qed.

(** Once a sign-in was handled the listener returns at its first line,
    whatever the provider reports. *)
Lemma listener_after_sign_in (s : State) (resources_user : option User) :
  authHandled (app s) = true -> listener resources_user s = Returned tt s.
Proof. intro H. unfold listener, bind, get. now rewrite H. Qed.

Lemma sign_out_ignored_when_signed_in (s : State) :
  reachable s -> clerkUser (app s) <> None ->
  step (EvAuthChange None) s = s.
Proof.
  intros Hr Hu. pose proof (reachable_Inv s Hr) as HI.
  unfold step. destruct (enabled (EvAuthChange None) s); [|reflexivity].
  cbn [fire]. rewrite listener_after_sign_in; [reflexivity|].
  destruct (authHandled (app s)) eqn:E; [reflexivity|].
  elim Hu. now apply (inv_nobody s HI).
Qed.

(** C2, where the code departs from it. A user is signed in, the token
    arrived and the socket is open; the identity provider then reports
    that there is no user. The listener is registered and is called, and
    it changes nothing: the socket is still open and current, the user
    and the flags are as before and the portal is still shown. *)
Theorem C2_sign_out_after_sign_in_is_ignored :
  let s := authenticating in
  let s' := step (EvAuthChange None) s in
  clerkUser (app s) = Some "ann"
  /\ enabled (EvAuthChange None) s = true
  /\ s' = s
  /\ socket (app s') = Some 0
  /\ socket_readyState 0 s' = Some OPEN
  /\ clerkUser (app s') = Some "ann"
  /\ isConnected (app s') = true
  /\ loginScreen (dom s') = d_none /\ portalScreen (dom s') = d_flex.
Proof. repeat split. Qed.

(* ------------------------------------------------------------------ *)
(** * The timeline for every stage of the vocabulary *)

Lemma rows_from_labels (lang : string) (cur i : Z) (l : list Stage) :
  map row_label (rows_from lang cur i l)
  = map (fun st => if lang =? "es" then labelEs st else label st) l.
Proof.
  revert i. induction l as [|st r IH]; intro i; cbn; [reflexivity|].
  now rewrite IH.
Qed.

(** X1. For the stage at position [i] of the vocabulary the timeline has
    its first [i] rows completed, row [i] active and the rows after it
    plain; whatever the stage (known, unknown or none) there are 8 rows,
    labelled in Spanish when the language is "es" and in English for
    every other code. *)
Theorem timeline_of_stage (lang : string) :
  (forall i k,
      nth_error (map key APPLICATION_STAGES) i = Some k ->
      map className (renderVerticalTimeline_rows lang (Some k)) = timeline_classes i)
  /\ (forall currentStage,
        List.length (renderVerticalTimeline_rows lang currentStage) = 8
        /\ map row_label (renderVerticalTimeline_rows lang currentStage)
           = stage_labels lang)
  /\ (lang <> "es" -> stage_labels lang = map label APPLICATION_STAGES).
Proof.
  split; [|split].
  - intros i k H.
    do 8 (destruct i as [|i]; [injection H as <-; reflexivity|]).
    destruct i; discriminate H.
  - intro currentStage. unfold renderVerticalTimeline_rows. split.
    + rewrite <- (length_map row_label), rows_from_labels. reflexivity.
    + apply rows_from_labels.
  - intro H. unfold stage_labels.
    destruct (lang =? "es") eqn:E; [apply String.eqb_eq in E; contradiction|].
    reflexivity.
Qed.

Lemma timeline_of_stage_witness :
  nth_error (map key APPLICATION_STAGES) 4 = Some "Contract & Payment Setup"
  /\ map className (renderVerticalTimeline_rows "es" (Some "Contract & Payment Setup"))
     = timeline_classes 4
  /\ "fr" <> "es"
  /\ stage_labels "fr" = map label APPLICATION_STAGES.
Proof.
  assert (H : nth_error (map key APPLICATION_STAGES) 4 = Some "Contract & Payment Setup")
    by reflexivity.
  assert (N : "fr" <> "es") by discriminate.
  split; [exact H|].
  split; [exact (proj1 (timeline_of_stage "es") 4 _ H)|].
  split; [exact N|].
  exact (proj2 (proj2 (timeline_of_stage "fr")) N).
Defined.

(* ------------------------------------------------------------------ *)
(** * The message log *)

Lemma replace_newlines_cons (c : ascii) (r : string) :
  replace_newlines (String c r)
  = if Ascii.eqb c "010"%char then "<br>" ++ replace_newlines r
    else String c (replace_newlines r).
Proof. reflexivity. Qed.

Lemma replace_newlines_clean (s : string) : has_newline (replace_newlines s) = false.
Proof.
  induction s as [|c r IH]; [reflexivity|].
  rewrite replace_newlines_cons.
  destruct (Ascii.eqb c "010"%char) eqn:E; cbn; [exact IH|].
  now rewrite E.
Qed.

Lemma replace_newlines_same (s : string) :
  has_newline s = false -> replace_newlines s = s.
Proof.
  induction s as [|c r IH]; [reflexivity|].
  rewrite replace_newlines_cons. cbn.
  destruct (Ascii.eqb c "010"%char); cbn; [discriminate|].
  intro H. now rewrite IH.
Qed.

Lemma lines_cons (c : ascii) (r : string) :
  lines (String c r)
  = if Ascii.eqb c "010"%char then EmptyString :: lines r
    else match lines r with
         | [] => [String c EmptyString]
         | piece :: pieces => String c piece :: pieces
         end.
Proof. reflexivity. Qed.

Lemma lines_not_nil (s : string) : lines s <> [].
Proof.
  destruct s as [|c r]; [discriminate|].
  rewrite lines_cons. destruct (Ascii.eqb c "010"%char); [discriminate|].
  destruct (lines r); discriminate.
Qed.

Lemma concat_cons (sep x : string) (l : list string) :
  l <> [] -> String.concat sep (x :: l) = x ++ sep ++ String.concat sep l.
Proof. destruct l; [intro H; now elim H | reflexivity]. Qed.

Lemma concat_String (sep : string) (c : ascii) (x : string) (l : list string) :
  String.concat sep (String c x :: l) = String c (String.concat sep (x :: l)).
Proof. destruct l; reflexivity. Qed.

(** Joined by line feeds, the pieces give the string back. *)
Lemma lines_join (s : string) : String.concat line_feed (lines s) = s.
Proof.
  induction s as [|c r IH]; [reflexivity|].
  rewrite lines_cons. destruct (Ascii.eqb c "010"%char) eqn:E.
  - apply Ascii.eqb_eq in E. subst c.
    rewrite (concat_cons _ _ _ (lines_not_nil r)), IH. reflexivity.
  - pose proof (lines_not_nil r) as Hn.
    destruct (lines r) as [|piece pieces]; [now elim Hn|].
    now rewrite concat_String, IH.
Qed.

Lemma lines_clean (s : string) : Forall (fun piece => has_newline piece = false) (lines s).
Proof.
  induction s as [|c r IH]; [repeat constructor|].
  rewrite lines_cons. destruct (Ascii.eqb c "010"%char) eqn:E.
  - constructor; [reflexivity | exact IH].
  - destruct (lines r) as [|piece pieces]; [repeat constructor; cbn; now rewrite E|].
    inversion IH as [|? ? Hp Hr]; subst.
    constructor; [cbn; now rewrite E, Hp | exact Hr].
Qed.

(** The replacement puts a break tag where the pieces were joined by a
    line feed. *)
Lemma replace_newlines_lines (s : string) :
  replace_newlines s = String.concat "<br>" (lines s).
Proof.
  induction s as [|c r IH]; [reflexivity|].
  rewrite replace_newlines_cons, lines_cons.
  destruct (Ascii.eqb c "010"%char).
  - rewrite (concat_cons _ _ _ (lines_not_nil r)), IH. reflexivity.
  - pose proof (lines_not_nil r) as Hn.
    destruct (lines r) as [|piece pieces]; [now elim Hn|].
    now rewrite concat_String, IH.
Qed.

(** X2. [addMessage] adds exactly one entry at the end of the log and
    touches nothing else. Each line feed of the content is replaced by a
    break tag: the entry is the pieces of the content between its line
    feeds, none of which holds a line feed and which give the content
    back when joined by line feeds, joined by break tags instead. So the
    entry holds no line feed, and a content without line feeds is
    entered as it is: no character of it is escaped. *)
Theorem addMessage_appends (s : State) (content : string) (role : Role) :
  exists entry,
    addMessage content role s
    = Returned tt (upd_dom (set_chatMessages (chatMessages (dom s) ++ [entry])%list) s)
    /\ msg_role entry = role
    /\ msg_html entry = String.concat "<br>" (lines content)
    /\ String.concat line_feed (lines content) = content
    /\ Forall (fun piece => has_newline piece = false) (lines content)
    /\ has_newline (msg_html entry) = false
    /\ (has_newline content = false -> msg_html entry = content).
Proof.
  exists {| msg_role := role; msg_html := replace_newlines content |}.
  split; [reflexivity|]. split; [reflexivity|].
  split; [apply replace_newlines_lines|].
  split; [apply lines_join|]. split; [apply lines_clean|].
  split; [apply replace_newlines_clean | apply replace_newlines_same].
Qed.

Lemma addMessage_appends_witness :
  has_newline "<b>hi</b>" = false
  /\ exists entry,
       addMessage "<b>hi</b>" assistant authenticating
       = Returned tt (upd_dom (set_chatMessages
                        (chatMessages (dom authenticating) ++ [entry])%list) authenticating)
       /\ msg_role entry = assistant
       /\ msg_html entry = String.concat "<br>" (lines "<b>hi</b>")
       /\ String.concat line_feed (lines "<b>hi</b>") = "<b>hi</b>"
       /\ Forall (fun piece => has_newline piece = false) (lines "<b>hi</b>")
       /\ has_newline (msg_html entry) = false
       /\ (has_newline "<b>hi</b>" = false -> msg_html entry = "<b>hi</b>").
Proof.
  split; [reflexivity|].
  exact (addMessage_appends authenticating "<b>hi</b>" assistant).
Defined.

(* ------------------------------------------------------------------ *)
(** * Trimming *)

Lemma list_of_string_rev (s : string) :
  list_ascii_of_string (string_rev s) = rev (list_ascii_of_string s).
Proof. unfold string_rev. apply list_ascii_of_string_of_list_ascii. Qed.

Lemma list_of_trimStart (s : string) :
  list_ascii_of_string (trimStart s) = drop_space (list_ascii_of_string s).
Proof.
  induction s as [|c r IH]; cbn; [reflexivity|].
  destruct (isWhiteSpace c); [exact IH | reflexivity].
Qed.

Lemma list_of_trim (s : string) :
  list_ascii_of_string (trim s)
  = rev (drop_space (rev (drop_space (list_ascii_of_string s)))).
Proof.
  unfold trim, trimEnd.
  now rewrite list_of_string_rev, list_of_trimStart, list_of_string_rev, list_of_trimStart.
Qed.

Lemma string_of_list_eq (a b : string) :
  list_ascii_of_string a = list_ascii_of_string b -> a = b.
Proof.
  intro H. rewrite <- (string_of_list_ascii_of_string a), H.
  apply string_of_list_ascii_of_string.
Qed.

Lemma drop_space_no_leading (l : list ascii) : no_leading_space (drop_space l) = true.
Proof.
  induction l as [|c r IH]; cbn; [reflexivity|].
  destruct (isWhiteSpace c) eqn:E; [exact IH|]. cbn. now rewrite E.
Qed.

Lemma drop_space_split (l : list ascii) :
  exists p, l = (p ++ drop_space l)%list /\ forallb isWhiteSpace p = true.
Proof.
  induction l as [|c r (p & Hp & Hw)]; cbn.
  - exists []. now split.
  - destruct (isWhiteSpace c) eqn:E.
    + exists (c :: p). cbn. rewrite E, Hw. split; [now rewrite <- Hp | reflexivity].
    + exists []. now split.
Qed.

Lemma drop_space_same (l : list ascii) :
  no_leading_space l = true -> drop_space l = l.
Proof.
  destruct l as [|c r]; cbn; [reflexivity|].
  destruct (isWhiteSpace c); [discriminate | reflexivity].
Qed.

Lemma drop_space_nil (l : list ascii) :
  drop_space l = [] <-> forallb isWhiteSpace l = true.
Proof.
  induction l as [|c r IH]; cbn; [tauto|].
  destruct (isWhiteSpace c); cbn; [exact IH|]. split; discriminate.
Qed.

Lemma drop_space_keeps_end (l : list ascii) :
  no_leading_space (rev l) = true -> no_leading_space (rev (drop_space l)) = true.
Proof.
  destruct (drop_space_split l) as (p & Hp & _).
  destruct (drop_space l) as [|c d] eqn:E; [reflexivity|].
  intro H. rewrite Hp, rev_app_distr in H.
  destruct (rev (c :: d)) as [|x t] eqn:Er.
  - apply (f_equal (@List.length ascii)) in Er. rewrite length_rev in Er. discriminate Er.
  - exact H.
Qed.

Lemma whitespace_only_list (s : string) :
  whitespace_only s = forallb isWhiteSpace (list_ascii_of_string s).
Proof.
  induction s as [|c r IH]; cbn; [reflexivity|]. now rewrite IH.
Qed.

Lemma begins_with_space_list (s : string) :
  begins_with_space s = negb (no_leading_space (list_ascii_of_string s)).
Proof. destruct s as [|c r]; cbn; [reflexivity|]. now rewrite negb_involutive. Qed.

Lemma forallb_rev {A : Type} (p : A -> bool) (l : list A) :
  forallb p (rev l) = forallb p l.
Proof.
  induction l as [|x r IH]; cbn; [reflexivity|].
  rewrite forallb_app, IH. cbn. rewrite andb_true_r. apply andb_comm.
Qed.

(** The trimmed string neither begins nor ends with white space,
    trimming it again changes nothing, and it is empty exactly when the
    string held white space only. *)
Lemma trim_spec (s : string) :
  begins_with_space (trim s) = false
  /\ ends_with_space (trim s) = false
  /\ trim (trim s) = trim s
  /\ (trim s = "" <-> whitespace_only s = true).
Proof.
  set (a := drop_space (list_ascii_of_string s)).
  set (c := drop_space (rev a)).
  assert (Ha : no_leading_space a = true) by apply drop_space_no_leading.
  assert (Hc : no_leading_space c = true) by apply drop_space_no_leading.
  assert (Hrc : no_leading_space (rev c) = true).
  { apply drop_space_keeps_end. now rewrite rev_involutive. }
  assert (Ht : list_ascii_of_string (trim s) = rev c) by apply list_of_trim.
  split; [|split; [|split]].
  - now rewrite begins_with_space_list, Ht, Hrc.
  - unfold ends_with_space.
    now rewrite begins_with_space_list, list_of_string_rev, Ht, rev_involutive, Hc.
  - apply string_of_list_eq. rewrite list_of_trim, Ht.
    rewrite (drop_space_same (rev c) Hrc), rev_involutive.
    now rewrite (drop_space_same c Hc).
  - rewrite whitespace_only_list. split.
    + intro E. rewrite E in Ht. cbn in Ht.
      assert (Ec : c = []).
      { destruct c as [|x t]; [reflexivity|]. cbn in Ht.
        symmetry in Ht. apply app_eq_nil in Ht. destruct Ht as (_ & Hx). discriminate Hx. }
      apply drop_space_nil in Ec. rewrite forallb_rev in Ec.
      assert (Ea : a = []).
      { destruct a as [|x t]; [reflexivity|]. cbn in Ha, Ec.
        destruct (isWhiteSpace x); discriminate. }
      now apply drop_space_nil.
    + intro H. now apply trim_whitespace_only; rewrite whitespace_only_list.
Qed.

Lemma truthy_string_not_empty (s : string) : truthy_string s = true <-> s <> "".
Proof. destruct s; cbn; split; try discriminate; try reflexivity; now intros []. Qed.

(** X3. With the socket open, a submit of an input that holds more than
    white space sends the trimmed input, which is not empty and neither
    begins nor ends with white space: the envelope is the last one on the
    current socket, the same text is the last entry of the log (under the
    role [user]), the quick actions are hidden and the input field is
    emptied; the app object is not touched. *)
Theorem sendMessage_sends_trimmed (s : State) (id : nat) (w : WebSocket) :
  isConnected (app s) = true ->
  socket (app s) = Some id ->
  nth_error (sockets (env s)) id = Some w ->
  readyState w = OPEN ->
  whitespace_only (messageInput_value (dom s)) = false ->
  let m := trim (messageInput_value (dom s)) in
  truthy_string m = true
  /\ begins_with_space m = false /\ ends_with_space m = false
  /\ exists s',
       sendMessage None s = Returned tt s'
       /\ sockets (env s') = alter (ws_push_sent (OutMessage m)) id (sockets (env s))
       /\ chatMessages (dom s')
          = (chatMessages (dom s)
             ++ [{| msg_role := user; msg_html := replace_newlines m |}])%list
       /\ messageInput_value (dom s') = ""
       /\ quickActions (dom s') = d_none
       /\ app s' = app s.
Proof.
  intros Hc Hs Hw Hr Hi m.
  destruct (trim_spec (messageInput_value (dom s))) as (Hb & He & _ & Hn).
  assert (Hm : truthy_string m = true).
  { apply truthy_string_not_empty. intro E. apply Hn in E. congruence. }
  split; [exact Hm|]. split; [exact Hb|]. split; [exact He|].
  unfold_handlers. cbn. fold m.
  repeat (rewrite ?Hm, ?Hc, ?Hs, ?Hw, ?Hr; cbn).
  eexists. split; [reflexivity|]. repeat split.
Qed.

Lemma sendMessage_sends_trimmed_witness :
  let s := step (EvInput "  hello there ") authenticating in
  exists s',
    sendMessage None s = Returned tt s'
    /\ sockets (env s')
       = alter (ws_push_sent (OutMessage (trim (messageInput_value (dom s))))) 0
               (sockets (env s))
    /\ messageInput_value (dom s') = "".
Proof.
  intro s.
  destruct (sendMessage_sends_trimmed s 0
              {| readyState := OPEN; ws_token := "tok";
                 ws_sent := [OutAuth "tok" "en"]; ws_received := [] |}
              eq_refl eq_refl eq_refl eq_refl eq_refl)
    as (_ & _ & _ & s' & H1 & H2 & _ & H3 & _).
  exists s'. repeat split; assumption.
Defined.

(* ------------------------------------------------------------------ *)
(** * What the message handler does with each payload *)

Lemma is_str_other (v : option Json) (a b : string) :
  is_str v a = true -> a <> b -> is_str v b = false.
Proof.
  unfold is_str. destruct v as [[]|]; try discriminate.
  intros H N. apply String.eqb_eq in H. subst. now apply String.eqb_neq.
Qed.

(** X4. A payload that no branch takes up is dropped without a trace:
    the handler returns and the state is as before. That covers every
    envelope type the client does not know, JSON values that are not
    objects, [typing] with a falsy status, and [auth_failed] with any
    reason other than [email_not_registered], after which the user is not
    signed out and sees no error. *)
Theorem onmessage_passes_over (s : State) (data : Json) :
  passed_over data = true -> onmessage (Parsed data) s = Returned tt s.
Proof.
  intro H. unfold passed_over in H.
  destruct data; try discriminate H;
    repeat (apply andb_prop in H; destruct H as [H ?]);
    repeat match goal with
           | E : negb _ = true |- _ => apply negb_true_iff in E
           end;
    unfold onmessage;
    match goal with
    | E : is_str _ "auth_success" = false |- _ => rewrite E
    end;
    match goal with
    | E : is_str _ "message" = false, F : _ && truthy _ = false |- _ =>
        rewrite E, F
    end;
    destruct (is_str _ "auth_failed") eqn:Ef; try reflexivity;
    cbn in *;
    match goal with
    | E : is_str _ "email_not_registered" = false |- _ => rewrite E
    end; reflexivity.
Qed.

Lemma onmessage_passes_over_witness :
  let data := JObj [("type", JStr "auth_failed"); ("reason", JStr "session_expired")] in
  passed_over data = true
  /\ onmessage (Parsed data) authenticating = Returned tt authenticating.
Proof.
  intro data. split; [reflexivity|].
  apply (onmessage_passes_over authenticating data). reflexivity.
Defined.

(** X5. An envelope [message] with a string content turns the typing
    indicator off and adds that content to the log as one entry of the
    assistant; an envelope [typing] with a truthy status turns the
    indicator on; an envelope [auth_success] shows the quick actions.
    None of the three changes the app object or anything of the browser
    side: the flags, the socket, the timers and the sign-out count stay. *)
Theorem onmessage_chat_events (s : State) (data : Json) :
  (forall content,
      is_str (member "type" data) "message" = true ->
      member "content" data = Some (JStr content) ->
      onmessage (Parsed data) s
      = Returned tt
          (upd_dom (fun d => set_chatMessages
                      (chatMessages d
                       ++ [{| msg_role := assistant;
                              msg_html := replace_newlines content |}])%list d)
             (upd_dom (set_typingIndicator_active false) s)))
  /\ (is_str (member "type" data) "typing" = true ->
      truthy (member "status" data) = true ->
      onmessage (Parsed data) s
      = Returned tt (upd_dom (set_typingIndicator_active true) s))
  /\ (is_str (member "type" data) "auth_success" = true ->
      onmessage (Parsed data) s = Returned tt (upd_dom (set_quickActions d_flex) s)).
Proof.
  split; [|split].
  - intros content Ht Hc.
    destruct data; try (cbv in Ht; discriminate Ht).
    unfold onmessage.
    rewrite (is_str_other _ _ "auth_success" Ht ltac:(discriminate)).
    rewrite (is_str_other _ _ "auth_failed" Ht ltac:(discriminate)).
    rewrite Ht, Hc. reflexivity.
  - intros Ht Hs.
    destruct data; try (cbv in Ht; discriminate Ht).
    unfold onmessage.
    rewrite (is_str_other _ _ "auth_success" Ht ltac:(discriminate)).
    rewrite (is_str_other _ _ "auth_failed" Ht ltac:(discriminate)).
    rewrite (is_str_other _ _ "message" Ht ltac:(discriminate)).
    rewrite Ht, Hs. reflexivity.
  - intro Ht.
    destruct data; try (cbv in Ht; discriminate Ht).
    unfold onmessage. rewrite Ht. reflexivity.
Qed.

Lemma onmessage_chat_events_witness :
  let data := JObj [("type", JStr "message"); ("content", JStr "hi")] in
  is_str (member "type" data) "message" = true
  /\ member "content" data = Some (JStr "hi")
  /\ onmessage (Parsed data) authenticating
     = Returned tt
         (upd_dom (fun d => set_chatMessages
                     (chatMessages d
                      ++ [{| msg_role := assistant;
                             msg_html := replace_newlines "hi" |}])%list d)
            (upd_dom (set_typingIndicator_active false) authenticating)).
Proof.
  intro data. split; [reflexivity|]. split; [reflexivity|].
  apply (proj1 (onmessage_chat_events authenticating data) "hi"); reflexivity.
Defined.

(** X6. With a language that has a table, the message handler throws on
    exactly three kinds of payload: what is not JSON, the JSON value
    [null], and an envelope [message] whose content is missing or is not
    a string. On the last kind it throws after it turned the typing
    indicator off, and the log is as before. *)
Theorem onmessage_throws_exactly (s : State) (event : Inbound) :
  i18n (language (app s)) <> None ->
  returned (onmessage event s) = negb (throws_on event)
  /\ (forall data,
        event = Parsed data ->
        is_str (member "type" data) "message" = true ->
        throws_on event = true ->
        onmessage event s
        = Threw TypeError (upd_dom (set_typingIndicator_active false) s)).
Proof.
  intro Hl. destruct (i18n (language (app s))) as [strings|] eqn:Hs; [clear Hl|now elim Hl].
  split.
  - destruct event as [raw|data]; [reflexivity|].
    destruct data; try reflexivity.
    unfold throws_on, onmessage.
    destruct (is_str (member "type" (JObj fields)) "auth_success") eqn:E1.
    { rewrite (is_str_other _ _ "message" E1 ltac:(discriminate)). reflexivity. }
    destruct (is_str (member "type" (JObj fields)) "auth_failed") eqn:E2.
    { rewrite (is_str_other _ _ "message" E2 ltac:(discriminate)). cbn.
      destruct (is_str (member "reason" (JObj fields)) "email_not_registered");
        [|reflexivity].
      unfold_handlers. cbn.
      destruct (clerk (env s)) eqn:Ec; destruct (clerkMounted (app s)) eqn:Em;
        repeat (rewrite ?Ec, ?Em, ?Hs; cbn); reflexivity. }
    destruct (is_str (member "type" (JObj fields)) "message") eqn:E3.
    { cbn. destruct (member "content" (JObj fields)) as [[]|]; reflexivity. }
    cbn. destruct (is_str (member "type" (JObj fields)) "typing"
                   && truthy (member "status" (JObj fields))); reflexivity.
  - intros data -> Ht Hx.
    destruct data; try (cbv in Ht; discriminate Ht).
    unfold throws_on in Hx. rewrite Ht in Hx. cbn in Hx.
    unfold onmessage.
    rewrite (is_str_other _ _ "auth_success" Ht ltac:(discriminate)).
    rewrite (is_str_other _ _ "auth_failed" Ht ltac:(discriminate)).
    rewrite Ht.
    destruct (member "content" (JObj fields)) as [[]|]; try discriminate Hx; reflexivity.
Qed.

Lemma onmessage_throws_exactly_witness :
  let event := Parsed (JObj [("type", JStr "message"); ("content", JNum 3)]) in
  i18n (language (app authenticating)) <> None
  /\ returned (onmessage event authenticating) = negb (throws_on event)
  /\ throws_on event = true.
Proof.
  intro event.
  assert (H : i18n (language (app authenticating)) <> None) by discriminate.
  split; [exact H|].
  split; [exact (proj1 (onmessage_throws_exactly authenticating event H)) | reflexivity].
Defined.

(* ------------------------------------------------------------------ *)
(** * Who signs the user out *)

(** X7. The provider's sign-out is called by three events only: the
    [logout] of the page, a 403 of the candidate-data request, and an
    envelope [auth_failed] with the reason [email_not_registered]. Every
    other event, in any state, leaves the number of calls as it is, and
    no event makes more than one call. *)
Theorem sign_out_callers (ev : Event) (s : State) :
  (signs_out ev = false -> signOutCalls (env (step ev s)) = signOutCalls (env s))
  /\ (signOutCalls (env (step ev s)) = signOutCalls (env s)
      \/ signOutCalls (env (step ev s)) = S (signOutCalls (env s))).
Proof.
  unfold step. destruct (enabled ev s); [|split; auto].
  split.
  - intro H. destruct ev; try discriminate H; unfold_handlers; split_cases;
      try reflexivity; cbn in H;
      repeat match goal with
             | E : ?x = true, F : ?y = true |- _ =>
                 match type of H with context [x && y] => rewrite E, F in H end
             end; try discriminate H; reflexivity.
  - destruct ev; unfold_handlers; split_cases; auto.
Qed.

Lemma sign_out_callers_witness :
  signs_out (EvAuthChange None) = false
  /\ signOutCalls (env (step (EvAuthChange None) authenticating))
     = signOutCalls (env authenticating).
Proof.
  split; [reflexivity|].
  apply (proj1 (sign_out_callers (EvAuthChange None) authenticating)). reflexivity.
Defined.

(* ------------------------------------------------------------------ *)
(** * More about lists of sockets *)

Lemma alter_alter {A : Type} (f g : A -> A) (id : nat) (l : list A) :
  alter f id (alter g id l) = alter (fun x => f (g x)) id l.
Proof.
  revert id. induction l as [|x r IH]; intros [|id]; cbn; try reflexivity.
  now rewrite IH.
Qed.

Lemma Forall_alter {A : Type} (P : A -> Prop) (f : A -> A) (id : nat) (l : list A) :
  Forall P l ->
  (forall x, nth_error l id = Some x -> P x -> P (f x)) ->
  Forall P (alter f id l).
Proof.
  intro H. revert id. induction H as [|x r Hx Hr IH]; intros [|id] Hf; cbn.
  - constructor.
  - constructor.
  - constructor; [apply Hf; [reflexivity | exact Hx] | exact Hr].
  - constructor; [exact Hx | apply IH; exact Hf].
Qed.

Lemma current_alter (sock : option nat) (f : WebSocket -> WebSocket) (id : nat)
      (l : list WebSocket) :
  current_l sock l ->
  (forall w, nth_error l id = Some w -> is_live (f w) = true -> is_live w = true) ->
  current_l sock (alter f id l).
Proof.
  intros Hc Hf j w Hj Hl. destruct (Nat.eq_dec id j) as [<-|N].
  - rewrite nth_error_alter in Hj.
    destruct (nth_error l id) as [w0|] eqn:E; [|discriminate Hj].
    injection Hj as <-. apply (Hc id w0 E). now apply Hf.
  - rewrite (nth_error_alter_other f id j l N) in Hj. now apply (Hc j w).
Qed.

Lemma current_new (l : list WebSocket) (x : WebSocket) :
  live_count l = 0 -> current_l (Some (List.length l)) (l ++ [x])%list.
Proof.
  intros H0 j w Hj Hl. destruct (Nat.lt_ge_cases j (List.length l)) as [Lt|Ge].
  - rewrite nth_error_app1 in Hj by exact Lt.
    pose proof (live_count_zero j l w H0 Hj). congruence.
  - rewrite nth_error_app2 in Hj by exact Ge.
    destruct (j - List.length l) as [|k] eqn:E.
    + f_equal. lia.
    + destruct k; discriminate Hj.
Qed.

Lemma current_nil (sock : option nat) : current_l sock [].
Proof. intros [|j] w H; discriminate H. Qed.

Lemma connecting_count_alter_le (f : WebSocket -> WebSocket) (id : nat)
      (l : list WebSocket) :
  (forall w, is_connecting (f w) = true -> is_connecting w = true) ->
  connecting_count (alter f id l) <= connecting_count l.
Proof.
  intro H. unfold connecting_count. revert id.
  induction l as [|x r IH]; intros [|id]; cbn; try lia.
  - destruct (is_connecting (f x)) eqn:E; [rewrite (H x E); cbn; lia|].
    destruct (is_connecting x); cbn; lia.
  - specialize (IH id). destruct (is_connecting x); cbn; lia.
Qed.

Lemma connecting_count_alter_same (f : WebSocket -> WebSocket) (id : nat)
      (l : list WebSocket) :
  (forall w, is_connecting (f w) = is_connecting w) ->
  connecting_count (alter f id l) = connecting_count l.
Proof.
  intro H. unfold connecting_count. revert id.
  induction l as [|x r IH]; intros [|id]; try reflexivity.
  - change (alter f 0 (x :: r)) with (f x :: r).
    change (filter is_connecting (f x :: r))
      with (if is_connecting (f x) then f x :: filter is_connecting r
            else filter is_connecting r).
    rewrite H. cbn. destruct (is_connecting x); reflexivity.
  - specialize (IH id). cbn. destruct (is_connecting x); cbn; congruence.
Qed.

Lemma connecting_count_alter_open (f : WebSocket -> WebSocket) (id : nat)
      (l : list WebSocket) (w : WebSocket) :
  nth_error l id = Some w -> is_connecting w = true -> is_connecting (f w) = false ->
  S (connecting_count (alter f id l)) = connecting_count l.
Proof.
  unfold connecting_count. revert id.
  induction l as [|x r IH]; intros [|id] H Hw Hf; cbn in *; try discriminate.
  - injection H as ->. now rewrite Hw, Hf.
  - destruct (is_connecting x); cbn; now rewrite <- (IH id H Hw Hf).
Qed.

Lemma connecting_count_new (l : list WebSocket) (token : string) :
  connecting_count (l ++ [new_WebSocket token])%list = S (connecting_count l).
Proof.
  unfold connecting_count. rewrite filter_app, length_app. cbn. lia.
Qed.

Lemma connecting_count_le_live (l : list WebSocket) :
  connecting_count l <= live_count l.
Proof.
  unfold connecting_count, live_count.
  induction l as [|x r IH]; cbn; [lia|].
  destruct x as [rs ? ? ?]. destruct rs; cbn; lia.
Qed.

Lemma connecting_count_zero (id : nat) (l : list WebSocket) (w : WebSocket) :
  connecting_count l = 0 -> nth_error l id = Some w -> readyState w <> CONNECTING.
Proof.
  unfold connecting_count. revert id.
  induction l as [|x r IH]; intros [|id] H0 H; cbn in *; try discriminate.
  - injection H as ->. intro E. unfold is_connecting in H0. rewrite E in H0. discriminate H0.
  - destruct (is_connecting x); [discriminate H0|]. now apply (IH id).
Qed.

(* ------------------------------------------------------------------ *)
(** * More of what every reachable state satisfies *)

Lemma is_live_push_sent (o : Outbound) (w : WebSocket) :
  is_live (ws_push_sent o w) = is_live w.
Proof. reflexivity. Qed.

Lemma sent_ok_push_received (i : Inbound) (w : WebSocket) :
  sent_ok (ws_push_received i w) = sent_ok w.
Proof. reflexivity. Qed.

Lemma sent_ok_closing (r : ReadyState) (w : WebSocket) :
  r <> OPEN -> sent_ok w = true -> sent_ok (ws_set_readyState r w) = true.
Proof.
  intros Hr. unfold sent_ok, starts_with_auth. cbn.
  destruct (ws_sent w) as [|[] ?]; cbn; try discriminate; try (intro H; exact H).
  intros _. destruct r; try reflexivity. now elim Hr.
Qed.

Lemma sent_ok_ws_close (w : WebSocket) : sent_ok w = true -> sent_ok (ws_close w) = true.
Proof.
  unfold ws_close. destruct (readyState w); try (intro H; exact H);
    apply sent_ok_closing; discriminate.
Qed.

(** An open socket that sends a well-formed envelope keeps its traffic
    well formed. *)
Lemma sent_ok_push_sent (o : Outbound) (w : WebSocket) :
  readyState w = OPEN -> envelope_ok o = true ->
  sent_ok w = true -> sent_ok (ws_push_sent o w) = true.
Proof.
  intros Hr Ho. unfold sent_ok, starts_with_auth. cbn. rewrite Hr. cbn.
  destruct (ws_sent w) as [|[] ?]; cbn; try discriminate.
  intro H. apply andb_prop in H. destruct H as [H1 H2].
  rewrite H1, forallb_app, H2. cbn. now rewrite Ho.
Qed.

(** The opening of a socket followed by its [auth] envelope. *)
Lemma sent_ok_open_auth (lang : string) (w : WebSocket) :
  sent_ok w = true ->
  sent_ok (ws_push_sent (OutAuth (ws_token w) lang) (ws_set_readyState OPEN w)) = true.
Proof.
  unfold sent_ok, starts_with_auth. cbn.
  destruct (ws_sent w) as [|[] ?]; cbn; try discriminate.
  - intros _. now rewrite String.eqb_refl.
  - intro H. apply andb_prop in H. destruct H as [H1 H2].
    rewrite H1, forallb_app, H2. reflexivity.
Qed.

Ltac rewrite_facts2 :=
  repeat match goal with
  | E : ?t = ?v |- _ =>
      lazymatch v with
      | true => idtac | false => idtac | None => idtac | Some _ => idtac
      | @nil _ => idtac | O => idtac | _ :: _ => idtac
      end;
      lazymatch t with
      | true => fail | false => fail | None => fail | Some _ => fail
      | @nil _ => fail | O => fail | _ :: _ => fail
      | _ => idtac
      end;
      progress (rewrite E in * )
  end; cbn in *.

Ltac tidy2 := repeat (progress (forward; rewrite_facts2)).

Ltac rewrite_alter :=
  rewrite ?nth_error_alter;
  repeat match goal with
  | H : context [nth_error (alter _ ?i _) ?i] |- _ => rewrite nth_error_alter in H
  end.

Ltac normalize2 :=
  cbn in *; repeat (progress (rewrite_alter; tidy2)).

Ltac split_cases2 :=
  repeat (normalize2;
    match goal with
    | |- context [match ?x with _ => _ end] =>
        lazymatch x with
        | context [match _ with _ => _ end] => fail
        | _ => destruct x eqn:?
        end
    end);
  normalize2.

Ltac solve_current :=
  unfold current_only in *; cbn in *;
  repeat (apply current_alter;
          [ | intros ? ? ?;
              first [ assumption
                    | discriminate
                    | rewrite is_live_ws_close in *; assumption
                    | congruence ] ]);
  first [ assumption
        | apply current_nil
        | apply current_new; unfold live_count in *; lia ].

Ltac fold_counts :=
  repeat match goal with
  | |- context [List.length (filter is_connecting ?l)] =>
      change (List.length (filter is_connecting l)) with (connecting_count l)
  | H : context [List.length (filter is_connecting ?l)] |- _ =>
      change (List.length (filter is_connecting l)) with (connecting_count l) in H
  | |- context [List.length (filter is_live ?l)] =>
      change (List.length (filter is_live l)) with (live_count l)
  | H : context [List.length (filter is_live ?l)] |- _ =>
      change (List.length (filter is_live l)) with (live_count l) in H
  end.

Ltac solve_cc :=
  rewrite ?alter_alter;
  fold_counts;
  repeat match goal with
  | |- context [connecting_count (alter ?f ?id ?l)] =>
      first
        [ match goal with
          | Hn : nth_error l id = Some ?w, Hc : is_connecting ?w = true |- _ =>
              pose proof (connecting_count_alter_open f id l w Hn Hc eq_refl)
          end
        | pose proof (connecting_count_alter_same f id l
                        ltac:(intros [[] ? ? ?]; reflexivity))
        | pose proof (connecting_count_alter_le f id l
                        ltac:(intros [[] ? ? ?]; cbn; congruence)) ];
      generalize dependent (connecting_count (alter f id l)); intros
  end;
  rewrite ?connecting_count_new in *;
  repeat match goal with
  | |- context [connecting_count ?l] =>
      lazymatch goal with
      | _ : connecting_count l <= live_count l |- _ => fail
      | _ => pose proof (connecting_count_le_live l)
      end
  | H : context [connecting_count ?l] |- _ =>
      lazymatch goal with
      | _ : connecting_count l <= live_count l |- _ => fail
      | _ => pose proof (connecting_count_le_live l)
      end
  end;
  lia.

Ltac same_socket :=
  try match goal with
  | Hw : nth_error ?l ?i = Some ?w, Hn : nth_error ?l ?i = Some ?x |- _ =>
      assert (x = w) by congruence; subst x
  end.

Ltac solve_sent :=
  cbn in *; rewrite ?alter_alter;
  repeat first
    [ assumption
    | apply Forall_nil
    | apply Forall_app; split; [ | repeat constructor ]
    | apply Forall_alter;
      [ | intros ? ? ?; same_socket;
          first [ assumption
                | apply sent_ok_open_auth; assumption
                | apply sent_ok_closing; [discriminate | assumption]
                | apply sent_ok_ws_close; assumption
                | apply sent_ok_push_sent;
                  [ congruence
                  | first [ reflexivity
                          | cbn in *;
                            match goal with
                            | H : negb ?b || _ = false |- ?b = true =>
                                destruct b; [reflexivity | discriminate H]
                            end
                          | cbn; congruence ]
                  | assumption ] ] ] ].

Ltac solve_field2 :=
  cbn in *; intros;
  repeat (cbn in *;
    match goal with
    | |- context [match authErrorContainer ?d with _ => _ end] =>
        lazymatch d with
        | context [match _ with _ => _ end] => fail
        | _ => destruct (authErrorContainer d) eqn:?
        end
    | H : context [match authErrorContainer ?d with _ => _ end] |- _ =>
        lazymatch d with
        | context [match _ with _ => _ end] => fail
        | _ => destruct (authErrorContainer d) eqn:?
        end
    end);
  cbn in *;
  repeat match goal with Hi : ?P -> _, Hp : ?P |- _ => specialize (Hi Hp) end;
  tidy2;
  first
    [ assumption
    | discriminate
    | congruence
    | solve [unfold screens_exclusive; cbn; auto]
    | solve [repeat split; first [assumption | reflexivity | congruence]]
    | solve [eauto]
    | solve [solve_current]
    | solve [solve_sent]
    | solve [solve_cc]
    | exfalso; unfold live_count in *; lia
    | idtac ].

Ltac close_inv2 := tidy2; try discriminate; try congruence; constructor; solve_field2.

Lemma current_socket (id : nat) (s : State) :
  current_only s -> enabled (EvClose id) s = true -> socket (app s) = Some id.
Proof.
  intros Hc En. apply enabled_live in En. destruct En as (w & Hw & Hl).
  exact (Hc id w Hw Hl).
Qed.

(** While [isConnected] is up, [this.socket] is a socket that is open
    or closing. *)
Lemma connected_socket (s : State) :
  Inv s -> Inv2 s -> isConnected (app s) = true ->
  exists id w,
    socket (app s) = Some id /\ nth_error (sockets (env s)) id = Some w
    /\ is_live w = true /\ readyState w <> CONNECTING.
Proof.
  intros HI HI2 Hc.
  pose proof (inv_connected s HI Hc) as Hl.
  destruct (live_count_witness _ Hl) as (id & w & Hw & Hlw).
  exists id, w. split; [exact (inv_current s HI2 id w Hw Hlw)|].
  split; [exact Hw|]. split; [exact Hlw|].
  exact (connecting_count_zero id _ w (inv_opened s HI2 Hc) Hw).
Qed.

Ltac sender_facts HI HI2 :=
  let Ec := fresh "Ec" in
  destruct (isConnected (app _)) eqn:Ec;
  [ let id := fresh "cid" in let w := fresh "cw" in
    let H1 := fresh "Hcs" in let H2 := fresh "Hcw" in
    let H3 := fresh "Hcl" in let H4 := fresh "Hcn" in
    destruct (connected_socket _ HI HI2 Ec) as (id & w & H1 & H2 & H3 & H4)
  | ].

Lemma step_Inv2 (ev : Event) (s : State) : Inv s -> Inv2 s -> Inv2 (step ev s).
Proof.
  intros HI HI2.
  pose proof HI as [Hone Hfresh Huser Hnobody Hinit Hconn Hclerk Hlisten Hidle].
  pose proof HI2 as [Hcur Hop Hatt Hscr Herr Hinp Htl].
  unfold step in *.
  destruct (enabled ev s) eqn:En; [|constructor; assumption].
  unfold live in *.
  destruct ev.
  - clear HI HI2. unfold enabled in En. tidy. unfold_handlers; split_cases2; close_inv2.
  - clear HI HI2. unfold enabled in En. tidy. unfold_handlers; split_cases2; close_inv2.
  - clear HI HI2. unfold enabled in En. forward. unfold_handlers; split_cases2; close_inv2.
  - pose proof (current_socket id s Hcur (enabled_open_live id s En)) as Hcs.
    apply enabled_connecting in En. destruct En as (w & Hw & Hr).
    assert (Hl : is_live w = true) by (unfold is_live; now rewrite Hr).
    assert (Hic : is_connecting w = true) by (unfold is_connecting; now rewrite Hr).
    pose proof (live_count_pos id _ w Hw Hl) as Hpos.
    clear HI HI2. unfold_handlers; split_cases2; close_inv2.
  - pose proof (current_socket id s Hcur (enabled_message_live _ _ _ En)) as Hcs.
    apply enabled_message_live, enabled_live in En. destruct En as (w & Hw & Hl).
    pose proof (live_count_pos id _ w Hw Hl) as Hpos.
    clear HI HI2. unfold_handlers; split_cases2; close_inv2.
  - apply enabled_live in En. destruct En as (w & Hw & Hl).
    pose proof (live_count_pos id _ w Hw Hl) as Hpos.
    clear HI HI2. unfold_handlers; split_cases2; close_inv2.
  - apply enabled_live in En. destruct En as (w & Hw & Hl).
    pose proof (live_count_pos id _ w Hw Hl) as Hpos.
    clear HI HI2. unfold_handlers; split_cases2; close_inv2.
  - unfold enabled in En.
    destruct (timers (env s)) as [|delay rest] eqn:Et; [discriminate|].
    clear HI HI2. unfold_handlers; split_cases2; close_inv2.
  - clear HI HI2. unfold enabled in En; forward; unfold_handlers; split_cases2; close_inv2.
  - clear HI HI2. unfold enabled in En; forward; unfold_handlers; split_cases2; close_inv2.
  - clear HI HI2. unfold enabled in En; forward; unfold_handlers; split_cases2; close_inv2.
  - sender_facts HI HI2; clear HI HI2; unfold_handlers; split_cases2; close_inv2.
  - sender_facts HI HI2; clear HI HI2; unfold_handlers; split_cases2; close_inv2.
  - sender_facts HI HI2; clear HI HI2; unfold_handlers; split_cases2; close_inv2.
  - sender_facts HI HI2; clear HI HI2; unfold_handlers; split_cases2; close_inv2.
  - clear HI HI2. unfold_handlers; split_cases2; close_inv2.
Qed.

Lemma initial_Inv2 (stored : option string) (page : Dom) : Inv2 (initial stored page).
Proof.
  constructor; cbn; try discriminate.
  intros id w Hn. destruct id; discriminate.
Qed.

Lemma run_Inv_both (trace : list Event) (s : State) :
  Inv s -> Inv2 s -> Inv (run trace s) /\ Inv2 (run trace s).
Proof.
  revert s. induction trace as [|ev trace IH]; intros s HI HI2; [now split|].
  cbn. apply IH; [now apply step_Inv | now apply step_Inv2].
Qed.

Lemma reachable_Inv2 (s : State) : reachable s -> Inv2 s.
Proof.
  intros (stored & page & trace & ->).
  apply run_Inv_both; [apply initial_Inv | apply initial_Inv2].
Qed.

(* ------------------------------------------------------------------ *)
(** * The traffic, while the language has something in [i18n] *)

Arguments has_strings : simpl never.

Lemma step_Inv3 (ev : Event) (s : State) :
  Inv s -> Inv2 s -> Inv3 s -> keeps_strings ev = true -> Inv3 (step ev s).
Proof.
  intros HI HI2 HI3 Hk.
  pose proof HI as [Hone Hfresh Huser Hnobody Hinit Hconn Hclerk Hlisten Hidle].
  pose proof HI2 as [Hcur Hop Hatt Hscr Herr Hinp Htl].
  pose proof HI3 as [Hstr Hsent].
  unfold step in *.
  destruct (enabled ev s) eqn:En; [|exact HI3].
  assert (Hs : exists strings, i18n (language (app s)) = Some strings).
  { unfold has_strings in Hstr. destruct (i18n (language (app s))) as [t|];
      [now exists t | discriminate Hstr]. }
  destruct Hs as (strings & Hs).
  unfold live in *. clear HI3.
  destruct ev.
  - clear HI HI2. unfold enabled in En. tidy. unfold_handlers; split_cases2; close_inv2.
  - clear HI HI2. unfold enabled in En. tidy. unfold_handlers; split_cases2; close_inv2.
  - clear HI HI2. unfold enabled in En. forward. unfold_handlers; split_cases2; close_inv2.
  - pose proof (current_socket id s Hcur (enabled_open_live id s En)) as Hcs.
    apply enabled_connecting in En. destruct En as (w & Hw & Hr).
    assert (Hl : is_live w = true) by (unfold is_live; now rewrite Hr).
    assert (Hic : is_connecting w = true) by (unfold is_connecting; now rewrite Hr).
    pose proof (live_count_pos id _ w Hw Hl) as Hpos.
    clear HI HI2. unfold_handlers; split_cases2; close_inv2.
  - pose proof (current_socket id s Hcur (enabled_message_live _ _ _ En)) as Hcs.
    apply enabled_message_live, enabled_live in En. destruct En as (w & Hw & Hl).
    pose proof (live_count_pos id _ w Hw Hl) as Hpos.
    clear HI HI2. unfold_handlers; split_cases2; close_inv2.
  - apply enabled_live in En. destruct En as (w & Hw & Hl).
    pose proof (live_count_pos id _ w Hw Hl) as Hpos.
    clear HI HI2. unfold_handlers; split_cases2; close_inv2.
  - apply enabled_live in En. destruct En as (w & Hw & Hl).
    pose proof (live_count_pos id _ w Hw Hl) as Hpos.
    clear HI HI2. unfold_handlers; split_cases2; close_inv2.
  - unfold enabled in En.
    destruct (timers (env s)) as [|delay rest] eqn:Et; [discriminate|].
    clear HI HI2. unfold_handlers; split_cases2; close_inv2.
  - clear HI HI2. unfold enabled in En; forward; unfold_handlers; split_cases2; close_inv2.
  - clear HI HI2. unfold enabled in En; forward; unfold_handlers; split_cases2; close_inv2.
  - clear HI HI2. unfold enabled in En; forward; unfold_handlers; split_cases2; close_inv2.
  - sender_facts HI HI2; clear HI HI2; unfold_handlers; split_cases2; close_inv2.
  - sender_facts HI HI2; clear HI HI2; unfold_handlers; split_cases2; close_inv2.
  - sender_facts HI HI2; clear HI HI2; unfold_handlers; split_cases2; close_inv2.
  - sender_facts HI HI2; clear HI HI2; cbn in Hk; unfold_handlers; split_cases2; close_inv2.
  - clear HI HI2. unfold_handlers; split_cases2; close_inv2.
Qed.

Lemma run_Inv3 (stored : option string) (page : Dom) (trace : list Event) :
  has_strings (stored_language stored) = true ->
  forallb keeps_strings trace = true ->
  Inv3 (run trace (initial stored page)).
Proof.
  intros Hs Ht.
  assert (H : Inv (run trace (initial stored page))
              /\ Inv2 (run trace (initial stored page))
              /\ Inv3 (run trace (initial stored page))); [|apply H].
  induction trace as [|ev trace IH] using rev_ind.
  - split; [apply initial_Inv|]. split; [apply initial_Inv2|].
    constructor; [exact Hs | constructor].
  - rewrite forallb_app in Ht. apply andb_prop in Ht. destruct Ht as [Ht He].
    cbn in He. rewrite andb_true_r in He.
    destruct (IH Ht) as (H1 & H2 & H3).
    rewrite run_app.
    change (run [ev] (run trace (initial stored page)))
      with (step ev (run trace (initial stored page))).
    split; [now apply step_Inv|]. split; [now apply step_Inv2|].
    now apply step_Inv3.
Qed.
(* ------------------------------------------------------------------ *)
(** * What holds in every reachable state *)

Lemma reachable_authenticating : reachable authenticating.
Proof. exists None, blank_page, sign_in_and_open. reflexivity. Qed.

Lemma reachable_awaiting_token : reachable awaiting_token.
Proof.
  exists None, blank_page, [EvInitClerk (Loaded None (Some "ann"))]. reflexivity.
Qed.

Lemma reachable_candidate_in_spanish : reachable candidate_in_spanish.
Proof.
  apply reachable_run. exact reachable_awaiting_token.
Qed.

(** X8. A socket that has not closed is the one [this.socket] names:
    every other socket the page ever made is closed. *)
Theorem live_socket_is_current (s : State) (id : nat) (w : WebSocket) :
  reachable s ->
  nth_error (sockets (env s)) id = Some w ->
  readyState w <> CLOSED ->
  socket (app s) = Some id.
Proof.
  intros Hr Hw Hc.
  apply (inv_current s (reachable_Inv2 s Hr) id w Hw).
  unfold is_live. destruct (readyState w); try reflexivity. now elim Hc.
Qed.

Lemma live_socket_is_current_witness :
  nth_error (sockets (env authenticating)) 0 = Some authenticating_socket
  /\ socket (app authenticating) = Some 0.
Proof.
  assert (H : nth_error (sockets (env authenticating)) 0 = Some authenticating_socket)
    by (vm_compute; reflexivity).
  split; [exact H|].
  apply (live_socket_is_current authenticating 0 authenticating_socket
           reachable_authenticating H).
  discriminate.
Defined.

(** X9. As long as [i18n] has something under the language in use,
    that is under the code the storage held at the start and under every
    code a language button has handed over since: whatever a socket has
    sent begins with the [auth] envelope that carries the token the
    socket was made for, an open socket has sent it, and no envelope
    [message] has an empty content. *)
Theorem traffic_well_formed (stored : option string) (page : Dom)
        (trace : list Event) (w : WebSocket) :
  has_strings (stored_language stored) = true ->
  forallb keeps_strings trace = true ->
  In w (sockets (env (run trace (initial stored page)))) ->
  match ws_sent w with
  | [] => readyState w <> OPEN
  | first :: _ => exists lang, first = OutAuth (ws_token w) lang
  end
  /\ forall content, In (OutMessage content) (ws_sent w) -> content <> "".
Proof.
  intros Hl Ht Hin.
  pose proof (inv_sent _ (run_Inv3 stored page trace Hl Ht)) as Hs.
  rewrite Forall_forall in Hs. specialize (Hs w Hin).
  unfold sent_ok in Hs. apply andb_prop in Hs. destruct Hs as [Ha He]. split.
  - unfold starts_with_auth in Ha.
    destruct (ws_sent w) as [|[t l|c|l|] rest]; try discriminate Ha.
    + intro E. rewrite E in Ha. discriminate Ha.
    + exists l. apply String.eqb_eq in Ha. now subst t.
  - intros content Hc. rewrite forallb_forall in He.
    apply truthy_string_not_empty. exact (He _ Hc).
Qed.

Lemma traffic_well_formed_witness :
  has_strings (stored_language None) = true
  /\ forallb keeps_strings sign_in_and_open = true
  /\ In authenticating_socket (sockets (env (run sign_in_and_open (initial None blank_page))))
  /\ (exists lang, OutAuth "tok" "en" = OutAuth (ws_token authenticating_socket) lang)
  /\ forall content,
       In (OutMessage content) (ws_sent authenticating_socket) -> content <> "".
Proof.
  assert (Hl : has_strings (stored_language None) = true) by reflexivity.
  assert (Ht : forallb keeps_strings sign_in_and_open = true) by reflexivity.
  assert (H : In authenticating_socket
                (sockets (env (run sign_in_and_open (initial None blank_page)))))
    by (vm_compute; left; reflexivity).
  split; [exact Hl|]. split; [exact Ht|]. split; [exact H|].
  exact (traffic_well_formed None blank_page sign_in_and_open authenticating_socket
           Hl Ht H).
Defined.

(** X10. Once [initClerk] has run, one of the two screens is shown and
    the other is hidden, whatever happened since. *)
Theorem one_screen_shown (s : State) :
  reachable s -> initDone (env s) = true -> screens_exclusive (dom s).
Proof. intros Hr. exact (inv_screens s (reachable_Inv2 s Hr)). Qed.

Lemma one_screen_shown_witness :
  initDone (env authenticating) = true /\ screens_exclusive (dom authenticating).
Proof.
  assert (H : initDone (env authenticating) = true) by (vm_compute; reflexivity).
  split; [exact H|].
  exact (one_screen_shown authenticating reachable_authenticating H).
Defined.

(** X11. While [isConnected] is up the input field and the send button
    are enabled. *)
Theorem input_enabled_while_connected (s : State) :
  reachable s ->
  isConnected (app s) = true ->
  messageInput_disabled (dom s) = false /\ sendButton_disabled (dom s) = false.
Proof. intros Hr. exact (inv_input s (reachable_Inv2 s Hr)). Qed.

Lemma input_enabled_while_connected_witness :
  isConnected (app authenticating) = true
  /\ messageInput_disabled (dom authenticating) = false
  /\ sendButton_disabled (dom authenticating) = false.
Proof.
  assert (H : isConnected (app authenticating) = true) by (vm_compute; reflexivity).
  split; [exact H|].
  exact (input_enabled_while_connected authenticating reachable_authenticating H).
Defined.

(** X12. While [isConnected] is up, [this.socket] is a socket that is
    open or closing: it has left the state in which [send] throws. *)
Theorem connected_socket_has_opened (s : State) :
  reachable s ->
  isConnected (app s) = true ->
  exists id w,
    socket (app s) = Some id /\ nth_error (sockets (env s)) id = Some w
    /\ (readyState w = OPEN \/ readyState w = CLOSING).
Proof.
  intros Hr Hc.
  destruct (connected_socket s (reachable_Inv s Hr) (reachable_Inv2 s Hr) Hc)
    as (id & w & Hs & Hw & Hl & Hn).
  exists id, w. split; [exact Hs|]. split; [exact Hw|].
  unfold is_live in Hl. destruct (readyState w); auto; [now elim Hn | discriminate Hl].
Qed.

Lemma connected_socket_has_opened_witness :
  isConnected (app authenticating) = true
  /\ exists id w,
       socket (app authenticating) = Some id
       /\ nth_error (sockets (env authenticating)) id = Some w
       /\ (readyState w = OPEN \/ readyState w = CLOSING).
Proof.
  assert (H : isConnected (app authenticating) = true) by (vm_compute; reflexivity).
  split; [exact H|].
  exact (connected_socket_has_opened authenticating reachable_authenticating H).
Defined.

(** X13. While [isConnecting] is up an attempt is under way: either
    [connect()] is waiting for its token or its socket is still
    connecting, and never both. The flag is not left up with nothing
    that would take it down. *)
Theorem connecting_flag_has_attempt (s : State) :
  reachable s ->
  isConnecting (app s) = true ->
  pendingConnects (env s) + connecting_count (sockets (env s)) = 1.
Proof. intros Hr. exact (inv_attempt s (reachable_Inv2 s Hr)). Qed.

Lemma connecting_flag_has_attempt_witness :
  isConnecting (app awaiting_token) = true
  /\ pendingConnects (env awaiting_token)
     + connecting_count (sockets (env awaiting_token)) = 1.
Proof.
  assert (H : isConnecting (app awaiting_token) = true) by (vm_compute; reflexivity).
  split; [exact H|].
  exact (connecting_flag_has_attempt awaiting_token reachable_awaiting_token H).
Defined.

(** X14. Whenever candidate data is held, the timeline on the page is
    the rendering of its stage in the language in use: a change of
    language or a new load leaves no stale timeline. *)
Theorem timeline_follows_candidate_data (s : State) (c : CandidateData) :
  reachable s ->
  candidateData (app s) = Some c ->
  verticalTimeline (dom s) = renderVerticalTimeline_rows (language (app s)) (stage c).
Proof. intros Hr. exact (inv_timeline s (reachable_Inv2 s Hr) c). Qed.

Lemma timeline_follows_candidate_data_witness :
  candidateData (app candidate_in_spanish) = Some in_training
  /\ verticalTimeline (dom candidate_in_spanish)
     = renderVerticalTimeline_rows (language (app candidate_in_spanish))
         (stage in_training).
Proof.
  assert (H : candidateData (app candidate_in_spanish) = Some in_training)
    by (vm_compute; reflexivity).
  split; [exact H|].
  exact (timeline_follows_candidate_data candidate_in_spanish in_training
           reachable_candidate_in_spanish H).
Defined.

(** X16. The error message is only ever visible on the sign-in screen:
    once [initClerk] has run, a displayed error container means that the
    sign-in screen is shown and the portal is hidden. *)
Theorem error_only_on_sign_in_screen (s : State) (el : AuthError) :
  reachable s ->
  initDone (env s) = true ->
  authErrorContainer (dom s) = Some el ->
  ae_display el = d_block ->
  loginScreen (dom s) = d_flex /\ portalScreen (dom s) = d_none.
Proof.
  intros Hr Hi He Hd.
  pose proof (inv_error s (reachable_Inv2 s Hr) Hi el He Hd) as Hl.
  split; [exact Hl|].
  destruct (inv_screens s (reachable_Inv2 s Hr) Hi) as [[_ Hp]|[Hn _]];
    [exact Hp | congruence].
Qed.

Lemma error_only_on_sign_in_screen_witness :
  initDone (env rejected) = true
  /\ authErrorContainer (dom rejected) = Some rejected_error
  /\ ae_display rejected_error = d_block
  /\ loginScreen (dom rejected) = d_flex /\ portalScreen (dom rejected) = d_none.
Proof.
  assert (Hi : initDone (env rejected) = true) by (vm_compute; reflexivity).
  assert (He : authErrorContainer (dom rejected) = Some rejected_error)
    by (vm_compute; reflexivity).
  split; [exact Hi|]. split; [exact He|]. split; [reflexivity|].
  exact (error_only_on_sign_in_screen rejected rejected_error
           (reachable_run _ _ reachable_authenticating) Hi He eq_refl).
Defined.

(* ------------------------------------------------------------------ *)
(** * Handlers that return *)

Ltac close_returned :=
  tidy2; try discriminate; try congruence; try reflexivity;
  try (exfalso; unfold live_count in *; lia).

Lemma known_quick_action (s : State) (action : string) (builtin : Property) :
  lang_ok s -> known_action action = true ->
  exists msg,
    quickActionMessage (language (app s)) action builtin = P_string msg
    /\ truthy_string msg = true.
Proof.
  unfold known_action, quickActionMessage, quickActionMessages, quickAction.
  intros [E|E] H; rewrite E; cbn [String.eqb Ascii.eqb Bool.eqb];
    destruct (action =? "status"); [eexists; split; reflexivity| |
                                   eexists; split; reflexivity|];
    destruct (action =? "question"); [eexists; split; reflexivity| |
                                     eexists; split; reflexivity|];
    destruct (action =? "human"); first [eexists; split; reflexivity | discriminate H].
Qed.

(** X17. In a reachable state whose language is one of the two that
    have a table, the handler of a plain event returns: the tables hold
    what is looked up in them, [this.socket] is there when the socket
    opens, and [send] is never called on a socket that is still
    connecting. *)
Theorem handlers_return (ev : Event) (s : State) :
  reachable s ->
  lang_ok s ->
  enabled ev s = true ->
  plain_event ev = true ->
  returned (fire ev s) = true.
Proof.
  intros Hr Hlang En Hm.
  pose proof (reachable_Inv s Hr) as HI. pose proof (reachable_Inv2 s Hr) as HI2.
  pose proof HI as [Hone Hfresh Huser Hnobody Hinit Hconn Hclerk Hlisten Hidle].
  pose proof HI2 as [Hcur Hop Hatt Hscr Herr Hinp Htl].
  destruct (lang_ok_i18n s Hlang) as (strings & Hs).
  unfold live in *.
  destruct ev; try discriminate Hm.
  - clear HI HI2. unfold enabled in En. tidy. unfold_handlers; split_cases2; close_returned.
  - clear HI HI2. unfold enabled in En. tidy. unfold_handlers; split_cases2; close_returned.
  - clear HI HI2. unfold enabled in En. forward. unfold_handlers; split_cases2; close_returned.
  - pose proof (current_socket id s Hcur (enabled_open_live id s En)) as Hcs.
    apply enabled_connecting in En. destruct En as (w & Hw & Hrs).
    clear HI HI2. unfold_handlers; split_cases2; close_returned.
  - clear HI HI2. unfold_handlers; split_cases2; close_returned.
  - clear HI HI2. unfold_handlers; split_cases2; close_returned.
  - clear HI HI2. unfold_handlers; split_cases2; close_returned.
  - clear HI HI2. unfold_handlers; split_cases2; close_returned.
  - clear HI HI2. unfold_handlers; split_cases2; close_returned.
  - clear HI HI2. unfold_handlers; split_cases2; close_returned.
  - sender_facts HI HI2; clear HI HI2; unfold_handlers; split_cases2; close_returned.
  - destruct (known_quick_action s action builtin Hlang Hm) as (msg & Hq & Ht).
    unfold fire, handleQuickAction, bind, get. rewrite Hq. unfold when. rewrite Ht.
    sender_facts HI HI2; clear HI HI2; unfold_handlers; split_cases2; close_returned.
  - sender_facts HI HI2; clear HI HI2; unfold_handlers; split_cases2; close_returned.
  - sender_facts HI HI2; clear HI HI2; unfold_handlers; split_cases2; close_returned.
  - clear HI HI2. unfold_handlers; split_cases2; close_returned.
Qed.

Lemma handlers_return_witness :
  lang_ok draft_typed
  /\ enabled EvSubmit draft_typed = true
  /\ plain_event EvSubmit = true
  /\ returned (fire EvSubmit draft_typed) = true.
Proof.
  assert (Hl : lang_ok draft_typed) by (left; vm_compute; reflexivity).
  split; [exact Hl|]. split; [reflexivity|]. split; [reflexivity|].
  apply (handlers_return EvSubmit draft_typed).
  - apply reachable_run. exact reachable_authenticating.
  - exact Hl.
  - reflexivity.
  - reflexivity.
Defined.

(* ------------------------------------------------------------------ *)
(** * A missing token *)

(** X18. When the session token is missing (or empty) as a suspended
    [connect()] goes on, the chat of this page is over: whatever happens
    afterwards, no socket is made, no reconnect timer is set and
    [isConnected] stays down. *)
Theorem token_missing_ends_reconnection (s : State) (token : option string)
        (trace : list Event) :
  reachable s ->
  enabled (EvToken token) s = true ->
  no_token token = true ->
  sockets (env (run trace (step (EvToken token) s))) = sockets (env s)
  /\ timers (env (run trace (step (EvToken token) s))) = []
  /\ pendingConnects (env (run trace (step (EvToken token) s))) = 0
  /\ isConnected (app (run trace (step (EvToken token) s))) = false.
Proof.
  intros Hr En Hn.
  pose proof (reachable_Inv s Hr) as HI.
  pose proof HI as [Hone Hfresh Huser Hnobody Hinit Hconn Hclerk Hlisten Hidle].
  assert (Hq : quiescent (step (EvToken token) s)
               /\ sockets (env (step (EvToken token) s)) = sockets (env s)).
  { unfold step. rewrite En. unfold enabled in En. apply Nat.ltb_lt in En.
    unfold quiescent, live in *.
    destruct (authHandled (app s)) eqn:Ea;
      [|destruct (Hfresh eq_refl) as (_ & _ & Hx & _); lia].
    assert (Ht : timers (env s) = [])
      by (destruct (timers (env s)); [reflexivity | cbn in Hone; lia]).
    unfold_handlers.
    destruct token as [t|]; cbn in Hn;
      [apply negb_true_iff in Hn; cbn; rewrite Hn|];
      cbn; repeat split; try assumption; lia. }
  destruct Hq as [Hq Hs0].
  destruct (run_quiescent trace _ (step_Inv _ s HI) Hq) as [(Ha & Hp & Hl & Ht) Hs1].
  split; [now rewrite Hs1|]. split; [exact Ht|]. split; [exact Hp|].
  pose proof (reachable_Inv _ (reachable_run trace _ (reachable_step (EvToken token) s Hr)))
    as HI'.
  destruct (isConnected (app (run trace (step (EvToken token) s)))) eqn:Ec; [|reflexivity].
  pose proof (inv_connected _ HI' Ec). lia.
Qed.

Lemma token_missing_ends_reconnection_witness :
  enabled (EvToken None) awaiting_token = true
  /\ no_token None = true
  /\ sockets (env (run later_events (step (EvToken None) awaiting_token)))
     = sockets (env awaiting_token)
  /\ timers (env (run later_events (step (EvToken None) awaiting_token))) = []
  /\ pendingConnects (env (run later_events (step (EvToken None) awaiting_token))) = 0
  /\ isConnected (app (run later_events (step (EvToken None) awaiting_token))) = false.
Proof.
  assert (H : enabled (EvToken None) awaiting_token = true) by (vm_compute; reflexivity).
  split; [exact H|]. split; [reflexivity|].
  exact (token_missing_ends_reconnection awaiting_token None later_events
           reachable_awaiting_token H eq_refl).
Defined.

(* ------------------------------------------------------------------ *)
(** * The user of the page *)

Lemma step_user_kept (ev : Event) (s : State) :
  Inv s -> authHandled (app s) = true ->
  authHandled (app (step ev s)) = true /\ clerkUser (app (step ev s)) = clerkUser (app s).
Proof.
  intros HI Ha.
  pose proof HI as [Hone Hfresh Huser Hnobody Hinit Hconn Hclerk Hlisten Hidle].
  unfold step. destruct (enabled ev s) eqn:En; [|now split].
  destruct (initDone (env s)) eqn:Hi;
    [|destruct (Hinit eq_refl) as [Hx _]; congruence].
  clear HI Hone Hfresh Hconn.
  destruct ev; unfold enabled in En; try (rewrite ?Hi in En; discriminate En);
    unfold_handlers; split_cases2; tidy2; try discriminate; try congruence;
    split; try assumption; try reflexivity; congruence.
Qed.

(** X19. The first sign-in is the only one: once a sign-in was handled,
    no event, of the provider or of the page, changes the user the app
    holds or takes [authHandled] down. A sign-out, the sign-in of another
    user, the logout button and a rejection by the backend all leave the
    first user in place. *)
Theorem signed_in_user_is_kept (s : State) (trace : list Event) :
  reachable s ->
  authHandled (app s) = true ->
  authHandled (app (run trace s)) = true
  /\ clerkUser (app (run trace s)) = clerkUser (app s).
Proof.
  intros Hr Ha. pose proof (reachable_Inv s Hr) as HI. clear Hr.
  revert s HI Ha. induction trace as [|ev trace IH]; intros s HI Ha; [now split|].
  change (run (ev :: trace) s) with (run trace (step ev s)).
  destruct (step_user_kept ev s HI Ha) as [Ha' Hu'].
  destruct (IH (step ev s) (step_Inv ev s HI) Ha') as [Ha2 Hu2].
  split; [exact Ha2 | now rewrite Hu2].
Qed.

Lemma signed_in_user_is_kept_witness :
  authHandled (app authenticating) = true
  /\ authHandled (app (run later_events authenticating)) = true
  /\ clerkUser (app (run later_events authenticating)) = clerkUser (app authenticating).
Proof.
  assert (H : authHandled (app authenticating) = true) by (vm_compute; reflexivity).
  split; [exact H|].
  exact (signed_in_user_is_kept authenticating later_events reachable_authenticating H).
Defined.

(* ------------------------------------------------------------------ *)
(** * The log and the quick actions *)

(** X20. The log only grows, by one entry at most for an event, until
    the user starts a new conversation: no other event removes or
    rewrites an entry, in any state. *)
Theorem log_only_grows (ev : Event) (s : State) :
  ev <> EvNewConversation ->
  exists added,
    chatMessages (dom (step ev s)) = (chatMessages (dom s) ++ added)%list
    /\ List.length added <= 1.
Proof.
  intro Hn. unfold step.
  destruct (enabled ev s);
    [|exists []; rewrite app_nil_r; split; [reflexivity | cbn; lia]].
  destruct ev; try (now elim Hn); clear Hn;
    unfold_handlers; split_cases;
    first [ exists []; rewrite app_nil_r; split; [reflexivity | cbn; lia]
          | eexists [_]; split; [reflexivity | cbn; lia] ].
Qed.

Lemma log_only_grows_witness :
  EvSubmit <> EvNewConversation
  /\ exists added,
       chatMessages (dom (step EvSubmit draft_typed))
       = (chatMessages (dom draft_typed) ++ added)%list
       /\ List.length added <= 1.
Proof.
  assert (H : EvSubmit <> EvNewConversation) by discriminate.
  split; [exact H|].
  exact (log_only_grows EvSubmit draft_typed H).
Defined.

Lemma quickAction_not_empty (lang : string) (q : QuickActions) (action msg : string) :
  quickActionMessages lang = Some q -> quickAction q action = P_string msg ->
  truthy_string msg = true.
Proof.
  unfold quickActionMessages, quickAction. intros Hq Ha.
  destruct (lang =? "en"); [|destruct (lang =? "es"); [|discriminate Hq]];
    injection Hq as <-;
    destruct (action =? "status"); try (injection Ha as <-; reflexivity);
    destruct (action =? "question"); try (injection Ha as <-; reflexivity);
    destruct (action =? "human"); try (injection Ha as <-; reflexivity);
    destruct (inherited action); discriminate Ha.
Qed.

(** X21. With the socket open, a quick action sends the text the table
    of the language in use has under its name, as it is: the envelope is
    the last one on the current socket, the text is the last entry of
    the log, the quick actions are hidden, and the input field is
    emptied, whatever the user had typed into it. *)
Theorem quick_action_sends (s : State) (id : nat) (w : WebSocket)
        (q : QuickActions) (action msg : string) (builtin : Property) :
  isConnected (app s) = true ->
  socket (app s) = Some id ->
  nth_error (sockets (env s)) id = Some w ->
  readyState w = OPEN ->
  quickActionMessages (language (app s)) = Some q ->
  quickAction q action = P_string msg ->
  exists s',
    handleQuickAction action builtin s = Returned tt s'
    /\ sockets (env s') = alter (ws_push_sent (OutMessage msg)) id (sockets (env s))
    /\ chatMessages (dom s')
       = (chatMessages (dom s)
          ++ [{| msg_role := user; msg_html := replace_newlines msg |}])%list
    /\ messageInput_value (dom s') = ""
    /\ quickActions (dom s') = d_none
    /\ app s' = app s.
Proof.
  intros Hc Hs Hw Hr Hq Ha.
  pose proof (quickAction_not_empty _ q action msg Hq Ha) as Ht.
  unfold handleQuickAction, bind, get, quickActionMessage. rewrite Hq, Ha.
  unfold when. rewrite Ht.
  unfold sendMessage, bind, get. rewrite Ht, Hc. cbn.
  unfold_handlers. cbn. rewrite ?Ht. cbn. rewrite Hs. cbn. rewrite Hw, Hr. cbn.
  eexists. split; [reflexivity|]. cbn. repeat split.
Qed.

Lemma quick_action_sends_witness :
  exists s',
    handleQuickAction "human" P_falsy draft_typed = Returned tt s'
    /\ sockets (env s')
       = alter (ws_push_sent (OutMessage "I would like to speak with a human")) 0
           (sockets (env draft_typed))
    /\ chatMessages (dom s')
       = (chatMessages (dom draft_typed)
          ++ [{| msg_role := user;
                 msg_html := replace_newlines "I would like to speak with a human" |}])%list
    /\ messageInput_value (dom s') = ""
    /\ quickActions (dom s') = d_none
    /\ app s' = app draft_typed.
Proof.
  apply (quick_action_sends draft_typed 0 authenticating_socket
           {| qa_status := "I want to check my application status";
              qa_question := "I have a question";
              qa_human := "I would like to speak with a human" |}
           "human" "I would like to speak with a human" P_falsy);
    vm_compute; reflexivity.
Defined.

(* ------------------------------------------------------------------ *)
(** * The candidate data *)

Lemma step_loads (ev : Event) (s : State) :
  Inv s ->
  pendingLoads (env (step ev s))
  <= if authHandled (app s) then pendingLoads (env s) else 2.
Proof.
  intros HI.
  pose proof HI as [Hone Hfresh Huser Hnobody Hinit Hconn Hclerk Hlisten Hidle].
  unfold step. destruct (enabled ev s) eqn:En;
    [|destruct (authHandled (app s)); [lia | destruct (Hidle eq_refl); lia]].
  destruct (authHandled (app s)) eqn:Ha.
  - destruct (initDone (env s)) eqn:Hi; [|destruct (Hinit eq_refl) as [Hx _]; congruence].
    clear HI Hone Hfresh Hconn.
    destruct ev; unfold enabled in En; try (rewrite ?Hi in En; discriminate En);
      unfold_handlers; split_cases2; tidy2; try discriminate; try congruence; cbn; lia.
  - destruct (Hidle eq_refl) as [Hl _]. clear HI Hone Hconn.
    destruct ev; unfold enabled in En;
      unfold_handlers; split_cases2; tidy2; try discriminate; try congruence; cbn; lia.
Qed.

Lemma run_loads (trace : list Event) (s : State) :
  Inv s -> authHandled (app s) = true ->
  pendingLoads (env (run trace s)) <= pendingLoads (env s).
Proof.
  revert s. induction trace as [|ev trace IH]; intros s HI Ha; [cbn; lia|].
  change (run (ev :: trace) s) with (run trace (step ev s)).
  pose proof (step_loads ev s HI) as H1. rewrite Ha in H1.
  destruct (step_user_kept ev s HI Ha) as [Ha' _].
  pose proof (IH (step ev s) (step_Inv ev s HI) Ha'). lia.
Qed.

(** X22. Once a sign-in was handled no event starts another request for
    the candidate data, so that what the sidebar shows is never refreshed
    for the life of the page. At most two requests are ever under way,
    and two are: when the provider calls the new listener back at once
    with a user, [initClerk] handles the sign-in a second time. *)
Theorem candidate_data_not_requested_again (s : State) (trace : list Event) :
  reachable s ->
  pendingLoads (env s) <= 2
  /\ (authHandled (app s) = true ->
      pendingLoads (env (run trace s)) <= pendingLoads (env s))
  /\ pendingLoads (env signed_in_twice) = 2.
Proof.
  intro Hr. split; [|split; [|reflexivity]].
  - destruct Hr as (stored & page & t & ->).
    induction t as [|ev t IH] using rev_ind; [cbn; lia|].
    rewrite run_app.
    change (run [ev] (run t (initial stored page)))
      with (step ev (run t (initial stored page))).
    pose proof (step_loads ev _ (run_Inv stored page t)) as H.
    destruct (authHandled (app (run t (initial stored page)))); lia.
  - intro Ha. apply run_loads; [now apply reachable_Inv | exact Ha].
Qed.

Lemma candidate_data_not_requested_again_witness :
  authHandled (app authenticating) = true
  /\ pendingLoads (env authenticating) <= 2
  /\ pendingLoads (env (run later_events authenticating))
     <= pendingLoads (env authenticating).
Proof.
  assert (H : authHandled (app authenticating) = true) by (vm_compute; reflexivity).
  split; [exact H|].
  destruct (candidate_data_not_requested_again authenticating later_events
              reachable_authenticating) as (H1 & H2 & _).
  split; [exact H1 | exact (H2 H)].
Defined.
